(** * PageStack: a shallow embedding of the cleaning and EPUB assembly code

    Sources: [src/pagestack/main.py] (image processing, [clean_html],
    [make_chapter_body], [build_epub]) and [src/pagestack/auto.py]
    ([build_and_send]).

    Data model.
    - An HTML tree, as BeautifulSoup holds it after the lxml parse, is a list
      of [node]s; attributes are an association list with one entry per name
      (a Python dict, in insertion order).
    - A Python [str] is held as its UTF-8 encoding in a Rocq [string]; the
      string methods the code calls ([strip], [split], [int]) work on its
      characters (module [Py]).
    - The per-run image cache [image_cache: dict[str, str]] is a [gmap].
    - The EPUB book is the list of items in the order of [book.add_item].
    - [process_images] and [clean_html] thread the cache, the book and the
      log of image downloads through a small state and exception monad [M]:
      an exception leaves the state as it was when it was raised, as the
      in-place mutations of the Python code do.

    The library primitives the code calls (urljoin, md5, mimetypes, the
    network, PIL, the lxml parser and serialiser, readability) are section
    variables: every theorem holds for all of them. *)

From stdpp Require Import base gmap strings list.
From Stdlib Require Import Ascii ZArith Sorted.

Local Open Scope Z_scope.

(* ------------------------------------------------------------------ *)
(** ** Python string helpers *)

Module Py.

(** Strings.  A Rocq [string] holds the UTF-8 encoding of a Python [str]
    (attribute values and text as BeautifulSoup returns them).  [chars]
    splits it into characters, each with its code point and its bytes; a
    byte that starts no well-formed sequence (never the case in the encoding
    of a [str]) is a character of its own, with a code point above the
    Unicode range. *)
Definition is_cont (b : ascii) : bool :=
  let n := N_of_ascii b in ((128 <=? n) && (n <? 192))%N.

Definition cont_bits (b : ascii) : N := (N_of_ascii b - 128)%N.

Fixpoint chars (l : list ascii) : list (N * list ascii) :=
  match l with
  | [] => []
  | b0 :: r =>
      let n := N_of_ascii b0 in
      if (n <? 128)%N then (n, [b0]) :: chars r
      else if ((192 <=? n) && (n <? 224))%N then
        match r with
        | b1 :: r1 =>
            if is_cont b1
            then (((n - 192) * 64 + cont_bits b1)%N, [b0; b1]) :: chars r1
            else ((1114112 + n)%N, [b0]) :: chars r
        | [] => ((1114112 + n)%N, [b0]) :: chars r
        end
      else if ((224 <=? n) && (n <? 240))%N then
        match r with
        | b1 :: b2 :: r2 =>
            if is_cont b1 && is_cont b2
            then (((n - 224) * 4096 + cont_bits b1 * 64 + cont_bits b2)%N, [b0; b1; b2])
                   :: chars r2
            else ((1114112 + n)%N, [b0]) :: chars r
        | _ => ((1114112 + n)%N, [b0]) :: chars r
        end
      else if ((240 <=? n) && (n <? 248))%N then
        match r with
        | b1 :: b2 :: b3 :: r3 =>
            if is_cont b1 && is_cont b2 && is_cont b3
            then (((n - 240) * 262144 + cont_bits b1 * 4096 + cont_bits b2 * 64
                    + cont_bits b3)%N, [b0; b1; b2; b3]) :: chars r3
            else ((1114112 + n)%N, [b0]) :: chars r
        | _ => ((1114112 + n)%N, [b0]) :: chars r
        end
      else ((1114112 + n)%N, [b0]) :: chars r
  end.

(** The code points of a string. *)
Definition code_points (s : string) : list N :=
  map fst (chars (String.list_ascii_of_string s)).

Definition of_chars (l : list (N * list ascii)) : string :=
  String.string_of_list_ascii (concat (map snd l)).

(** [Py_UNICODE_ISSPACE], i.e. [str.isspace] on one character. *)
Definition is_space (c : N) : bool :=
  ((9 <=? c) && (c <=? 13))%N || ((28 <=? c) && (c <=? 32))%N ||
  ((8192 <=? c) && (c <=? 8202))%N ||
  existsb (N.eqb c) [133; 160; 5760; 8232; 8233; 8239; 8287; 12288]%N.

Fixpoint drop_spaces (l : list (N * list ascii)) : list (N * list ascii) :=
  match l with
  | [] => []
  | c :: r => if is_space (fst c) then drop_spaces r else l
  end.

(** [s.strip()] *)
Definition strip (s : string) : string :=
  of_chars (rev (drop_spaces (rev (drop_spaces (chars (String.list_ascii_of_string s)))))).

(** [s.split(sep)] for a one-character ASCII separator: empty pieces are
    kept.  (An ASCII byte never occurs inside the encoding of another
    character.) *)
Fixpoint split_on_aux (sep : ascii) (l : list ascii) (cur : list ascii)
  : list string :=
  match l with
  | [] => [String.string_of_list_ascii (rev cur)]
  | c :: r =>
      if Ascii.eqb c sep then String.string_of_list_ascii (rev cur) :: split_on_aux sep r []
      else split_on_aux sep r (c :: cur)
  end.

Definition split_on (sep : ascii) (s : string) : list string :=
  split_on_aux sep (String.list_ascii_of_string s) [].

(** [s.split()]: maximal runs of non-space characters. *)
Fixpoint split_ws_aux (l : list (N * list ascii)) (cur : list (N * list ascii))
  : list string :=
  match l with
  | [] => match cur with [] => [] | _ => [of_chars (rev cur)] end
  | c :: r =>
      if is_space (fst c) then
        match cur with
        | [] => split_ws_aux r []
        | _ => of_chars (rev cur) :: split_ws_aux r []
        end
      else split_ws_aux r (c :: cur)
  end.

Definition split_ws (s : string) : list string :=
  split_ws_aux (chars (String.list_ascii_of_string s)) [].

(** [s.startswith(p)] *)
Definition startswith (p s : string) : bool := String.prefix p s.

(** [int(s)] for a [str] [s], as CPython computes it
    ([_PyLong_FromUnicodeObject]); [None] is the [ValueError]. *)

(** The zeros of the runs of ten decimal digits (category Nd) of the
    Unicode 14.0 database; [Py_UNICODE_TODECIMAL]. *)
Definition decimal_zeros : list N :=
  [48; 1632; 1776; 1984; 2406; 2534; 2662; 2790; 2918; 3046; 3174; 3302;
   3430; 3558; 3664; 3792; 3872; 4160; 4240; 6112; 6160; 6470; 6608; 6784;
   6800; 6992; 7088; 7232; 7248; 42528; 43216; 43264; 43472; 43504; 43600;
   44016; 65296; 66720; 68912; 69734; 69872; 69942; 70096; 70384; 70736;
   70864; 71248; 71360; 71472; 71904; 72016; 72784; 73040; 73120; 92768;
   92864; 93008; 120782; 120792; 120802; 120812; 120822; 123200; 123632;
   125264; 130032]%N.

Definition to_decimal (c : N) : option N :=
  match List.find (fun z => (z <=? c) && (c <? z + 10))%N decimal_zeros with
  | Some z => Some (c - z)%N
  | None => None
  end.

(** [_PyUnicode_TransformDecimalAndSpaceToASCII]: an ASCII character is
    kept, other white space becomes a space and another decimal digit its
    ASCII digit; any other character makes the parse fail. *)
Definition to_ascii_char (c : N) : option N :=
  if (c <? 128)%N then Some c
  else if is_space c then Some 32%N
  else option_map (fun d => 48 + d)%N (to_decimal c).

Fixpoint to_ascii (l : list N) : option (list N) :=
  match l with
  | [] => Some []
  | c :: r =>
      match to_ascii_char c, to_ascii r with
      | Some c', Some r' => Some (c' :: r')
      | _, _ => None
      end
  end.

(** [PyLong_FromString] in base 10 on the converted text: ASCII white
    space ([Py_ISSPACE]) around, an optional sign, then digits with single
    underscores between them. *)
Definition ascii_space (c : N) : bool := ((9 <=? c) && (c <=? 13))%N || (c =? 32)%N.

Definition digit (c : N) : option Z :=
  if ((48 <=? c) && (c <=? 57))%N then Some (Z.of_N (c - 48)) else None.

(** The rest of a numeral after a digit, with the value so far. *)
Fixpoint digits_rest (l : list N) (acc : Z) : option Z :=
  match l with
  | [] => Some acc
  | c :: r =>
      match digit c with
      | Some d => digits_rest r (10 * acc + d)
      | None =>
          if (c =? 95)%N then
            match r with
            | c' :: r' =>
                match digit c' with
                | Some d => digits_rest r' (10 * acc + d)
                | None => None
                end
            | [] => None
            end
          else if forallb ascii_space l then Some acc else None
      end
  end.

Definition unsigned (l : list N) : option Z :=
  match l with
  | c :: r => match digit c with Some d => digits_rest r d | None => None end
  | [] => None
  end.

Fixpoint drop_ascii_spaces (l : list N) : list N :=
  match l with
  | [] => []
  | c :: r => if ascii_space c then drop_ascii_spaces r else l
  end.

Definition parse_int (l : list N) : option Z :=
  match drop_ascii_spaces l with
  | c :: r =>
      if (c =? 45)%N then option_map Z.opp (unsigned r)
      else if (c =? 43)%N then unsigned r
      else unsigned (c :: r)
  | [] => None
  end.

Definition int (s : string) : option Z :=
  match to_ascii (code_points s) with
  | Some l => parse_int l
  | None => None
  end.

(** Python truthiness of [d.get(k)] (a missing key is [None]). *)
Definition truthy (o : option string) : bool :=
  match o with Some v => negb (String.eqb v "") | None => false end.

End Py.

(* ------------------------------------------------------------------ *)
(** ** The HTML tree *)

Definition attrs := list (string * string).

(** [tag.get(k)] *)
Fixpoint attr_get (k : string) (a : attrs) : option string :=
  match a with
  | [] => None
  | (k', v) :: r => if String.eqb k k' then Some v else attr_get k r
  end.

(** [tag.get(k, d)] *)
Definition attr_get_d (k d : string) (a : attrs) : string :=
  match attr_get k a with Some v => v | None => d end.

Definition has_attr (k : string) (a : attrs) : bool :=
  match attr_get k a with Some _ => true | None => false end.

(** [tag[k] = v]: a present key keeps its place, a new one goes last. *)
Definition attr_set (k v : string) (a : attrs) : attrs :=
  if has_attr k a
  then map (fun '(k', v') => if String.eqb k k' then (k', v) else (k', v')) a
  else a ++ [(k, v)].

(** [del tag.attrs[k]] *)
Definition attr_del (k : string) (a : attrs) : attrs :=
  List.filter (fun kv => negb (String.eqb k kv.1)) a.

#[local] Set Warnings "-register-all".

Inductive node : Type :=
| Elem (tag : string) (a : attrs) (children : list node)
| Text (s : string)
| Comment (s : string).

(** [_sanitise_attrs]: keep only the listed attributes. *)
Definition keep_attrs : list string :=
  ["src"; "href"; "alt"; "title"; "colspan"; "rowspan"; "width"; "height"].

Definition mem (s : string) (l : list string) : bool :=
  existsb (String.eqb s) l.

Definition sanitise_attrs (a : attrs) : attrs :=
  List.filter (fun kv => mem kv.1 keep_attrs) a.

Definition UNWANTED_TAGS : list string :=
  ["script"; "style"; "noscript"; "iframe"; "object"; "embed"; "form";
   "button"; "input"; "select"; "textarea"; "nav"; "aside"; "footer";
   "header"; "advertisement"].

Definition UNWANTED_ATTRS : list string :=
  ["onclick"; "onload"; "onerror"; "class"; "id"; "style";
   "data-src-retina"; "data-original"; "loading"; "decoding";
   "fetchpriority"; "sizes"; "crossorigin"; "referrerpolicy"].

(* ------------------------------------------------------------------ *)
(** ** EPUB items and the run state *)

(** [epub.EpubItem(uid=..., file_name=..., media_type=..., content=...)] *)
Record epub_item := mk_item {
  uid : string; file_name : string; media_type : string; content : string }.

(** [epub.EpubHtml(title=..., file_name=..., lang=...)] with its
    [content] and the hrefs given to [add_link]. *)
Record epub_html := mk_html {
  h_title : string; h_file_name : string; h_lang : string;
  h_content : string; h_links : list string }.

Inductive book_item :=
| Item (i : epub_item)
| Html (h : epub_html)
| Ncx
| Nav.

(** What [process_images] and [clean_html] mutate: the image cache, the
    book's items, and the URLs handed to [fetch_binary], in order. *)
Record istate := mk_ist {
  cache : gmap string string; book : list book_item; fetched : list string }.

(** State and exception monad: [None] is a raised exception. *)
Definition M (A : Type) := istate -> option A * istate.

Definition ret {A} (x : A) : M A := fun s => (Some x, s).

Definition bind {A B} (m : M A) (k : A -> M B) : M B :=
  fun s => match m s with
           | (Some x, s') => k x s'
           | (None, s') => (None, s')
           end.

Definition lift {A} (o : option A) : M A := fun s => (o, s).

Declare Scope m_scope.
Notation "'let*' x ':=' m 'in' k" := (bind m (fun x => k))
  (at level 200, x name, m at level 100, k at level 200) : m_scope.
Local Open Scope m_scope.

Fixpoint traverse {A B} (f : A -> M B) (l : list A) : M (list B) :=
  match l with
  | [] => ret []
  | x :: r => let* y := f x in let* ys := traverse f r in ret (y :: ys)
  end.

(* ------------------------------------------------------------------ *)
(** ** The tree passes of [clean_html] that need no library call *)

(** [for comment in soup.find_all(string=...Comment): comment.extract()] *)
Fixpoint remove_comments_node (n : node) : list node :=
  match n with
  | Elem t a ch => [Elem t a (flat_map remove_comments_node ch)]
  | Text s => [Text s]
  | Comment _ => []
  end.

(** [for tag in soup.find_all(_UNWANTED_TAGS): tag.decompose()]: a matching
    tag goes with its whole subtree. *)
Fixpoint drop_unwanted_node (n : node) : list node :=
  match n with
  | Elem t a ch =>
      if mem t UNWANTED_TAGS then []
      else [Elem t a (flat_map drop_unwanted_node ch)]
  | _ => [n]
  end.

(** [[s.strip().split()[0] for s in srcset.split(",") if s.strip()]] *)
Definition srcset_candidates (srcset : string) : list string :=
  map (fun s => default "" (head (Py.split_ws (Py.strip s))))
      (List.filter (fun s => negb (String.eqb (Py.strip s) "")) (Py.split_on "," srcset)).

(** The body of the srcset loop of [clean_html], for one [<img>]. *)
Definition handle_srcset (a : attrs) : attrs :=
  let srcset := attr_get_d "srcset" "" a in
  let a1 :=
    if negb (String.eqb srcset "") && negb (Py.truthy (attr_get "src" a)) then
      match last (srcset_candidates srcset) with
      | Some c => attr_set "src" c a
      | None => a
      end
    else a in
  if has_attr "srcset" a1 then attr_del "srcset" a1 else a1.

Fixpoint srcset_node (n : node) : node :=
  match n with
  | Elem t a ch =>
      Elem t (if String.eqb t "img" then handle_srcset a else a) (map srcset_node ch)
  | _ => n
  end.

(** [for tag in soup.find_all(True): if tag.name == "img": continue; ...]:
    deny-listed attributes are deleted from every other tag. *)
Definition strip_unwanted_attrs (a : attrs) : attrs :=
  List.filter (fun kv => negb (mem kv.1 UNWANTED_ATTRS)) a.

Fixpoint strip_attrs_node (n : node) : node :=
  match n with
  | Elem t a ch =>
      Elem t (if String.eqb t "img" then a else strip_unwanted_attrs a)
             (map strip_attrs_node ch)
  | _ => n
  end.

(** [tag.get_text(strip=True)] is non-empty. *)
Fixpoint has_text (n : node) : bool :=
  match n with
  | Elem _ _ ch => existsb has_text ch
  | Text s => negb (String.eqb (Py.strip s) "")
  | Comment _ => false
  end.

(** The node is an [<img>] or has one below it. *)
Fixpoint has_img (n : node) : bool :=
  match n with
  | Elem t _ ch => String.eqb t "img" || existsb has_img ch
  | _ => false
  end.

(** [for tag in soup.find_all(["p", "div", "span"]): if not
    tag.get_text(strip=True) and not tag.find("img"): tag.decompose()].
    Tags are visited in document order; removing an empty tag changes
    neither the text nor the images of the tags around it, so the loop is
    this recursive removal. *)
Fixpoint remove_empty_node (n : node) : list node :=
  match n with
  | Elem t a ch =>
      if mem t ["p"; "div"; "span"] && negb (existsb has_text ch)
         && negb (existsb has_img ch)
      then []
      else [Elem t a (flat_map remove_empty_node ch)]
  | _ => [n]
  end.

Fixpoint first_some {A B} (f : A -> option B) (l : list A) : option B :=
  match l with
  | [] => None
  | x :: r => match f x with Some y => Some y | None => first_some f r end
  end.

(** [soup.find("body")], giving its children. *)
Fixpoint find_body (n : node) : option (list node) :=
  match n with
  | Elem t _ ch => if String.eqb t "body" then Some ch else first_some find_body ch
  | _ => None
  end.

(* ------------------------------------------------------------------ *)
(** ** [process_images] and [clean_html] *)

Section Pipeline.

(** [urljoin(base, url)]; [None] when it raises [ValueError]. *)
Variable urljoin : string -> string -> option string.
(** [hashlib.md5(s.encode()).hexdigest()[:10]] *)
Variable md5_10 : string -> string.
(** [mimetypes.guess_extension(mime)] *)
Variable guess_extension : string -> option string.
(** [fetch_binary(url, session)] as the [n]-th image download of the run
    sees it: [Some (data, mime_type)], or [None] when it failed. *)
Variable fetch_binary : nat -> string -> option (string * string).
(** The PIL block: the bytes kept for a download of the given MIME type
    (the original bytes when PIL is missing, fails or does not resize). *)
Variable downsample : string -> string -> string.

(** [ext = mimetypes.guess_extension(mime_type) or ".jpg"], with
    [.jpe]/[.jpeg] turned into [.jpg]. *)
Definition image_ext (mime_type : string) : string :=
  match guess_extension mime_type with
  | Some e =>
      if String.eqb e "" then ".jpg"
      else if mem e [".jpe"; ".jpeg"] then ".jpg" else e
  | None => ".jpg"
  end.

(** [epub_path = f"images/{url_hash}{ext}"] *)
Definition image_path (abs_url mime_type : string) : string :=
  "images/" +:+ md5_10 abs_url +:+ image_ext mime_type.

(** [src = (img.get("data-src") or img.get("data-lazy-src")
           or img.get("data-original") or img.get("src", "")).strip()] *)
Definition img_src (a : attrs) : string :=
  Py.strip
    (if Py.truthy (attr_get "data-src" a) then attr_get_d "data-src" "" a
     else if Py.truthy (attr_get "data-lazy-src" a) then attr_get_d "data-lazy-src" "" a
     else if Py.truthy (attr_get "data-original" a) then attr_get_d "data-original" "" a
     else attr_get_d "src" "" a).

(** [if int(w) <= 2 or int(h) <= 2: ...] inside [try ... except
    (ValueError, TypeError): pass]; [true] when the image is decomposed.
    [int(h)] is evaluated only when [int(w) <= 2] is false. *)
Definition tracking_pixel (w h : string) : bool :=
  match Py.int w with
  | None => false
  | Some wi =>
      if wi <=? 2 then true
      else match Py.int h with
           | None => false
           | Some hi => hi <=? 2
           end
  end.

(** The [<figure>] wrapping of a freshly embedded image. *)
Definition wrap_figure (parent : string) (a : attrs) : list node :=
  if mem parent ["figure"; "p"; "a"] then [Elem "img" a []]
  else
    let alt := Py.strip (attr_get_d "alt" "" a) in
    [Elem "figure" []
       (Elem "img" a [] ::
        (if String.eqb alt "" then [] else [Elem "figcaption" [] [Text alt]]))].

(** One iteration of the loop of [process_images]: the nodes that take the
    place of the [<img>] (none when it is decomposed). *)
Definition process_img (base_url parent : string) (a : attrs) : M (list node) :=
  let src := img_src a in
  if String.eqb src "" then ret []
  else if tracking_pixel (attr_get_d "width" "" a) (attr_get_d "height" "" a)
  then ret []
  else if Py.startswith "data:" src then ret [Elem "img" a []]
  else
    let* abs_url := lift (urljoin base_url src) in
    fun st =>
      match cache st !! abs_url with
      | Some p => (Some [Elem "img" (sanitise_attrs (attr_set "src" p a)) []], st)
      | None =>
          let n := length (fetched st) in
          let log := fetched st ++ [abs_url] in
          match fetch_binary n abs_url with
          | None => (Some [], mk_ist (cache st) (book st) log)
          | Some (data, mime_type) =>
              let epub_path := image_path abs_url mime_type in
              let it := mk_item ("img_" +:+ md5_10 abs_url) epub_path mime_type
                                (downsample mime_type data) in
              let a' := sanitise_attrs (attr_set "src" epub_path a) in
              (Some (wrap_figure parent a'),
               mk_ist (<[abs_url := epub_path]> (cache st)) (book st ++ [Item it]) log)
          end
      end.

(** [for img in soup.find_all("img")]: images in document order, each
    seen with the name of its parent tag.  [<img>] is a void element, so the
    parser gives it no children. *)
Fixpoint process_node (base_url parent : string) (n : node) : M (list node) :=
  match n with
  | Elem t a ch =>
      if String.eqb t "img" then process_img base_url parent a
      else let* ch' := traverse (process_node base_url t) ch in
           ret [Elem t a (concat ch')]
  | _ => ret [n]
  end.

Definition process_images (base_url : string) (ns : list node) : M (list node) :=
  let* r := traverse (process_node base_url "[document]") ns in ret (concat r).

(** The link loop: [for a in soup.find_all("a", href=True):
    a["href"] = urljoin(base_url, a["href"])]. *)
Fixpoint fix_links_node (base_url : string) (n : node) : option node :=
  match n with
  | Elem t a ch =>
      a' ← (if String.eqb t "a" && has_attr "href" a
            then h ← urljoin base_url (attr_get_d "href" "" a);
                 Some (attr_set "href" h a)
            else Some a);
      ch' ← mapM (fix_links_node base_url) ch;
      Some (Elem t a' ch')
  | _ => Some n
  end.

(** [clean_html] from the parsed tree to the nodes it serialises: the
    children of [<body>], or the whole document when there is none. *)
Definition clean_tree (base_url : string) (parsed : list node) : M (list node) :=
  let t1 := flat_map remove_comments_node parsed in
  let t2 := flat_map drop_unwanted_node t1 in
  let t3 := map srcset_node t2 in
  let* t4 := process_images base_url t3 in
  let* t5 := lift (mapM (fix_links_node base_url) t4) in
  let t6 := map strip_attrs_node t5 in
  let t7 := flat_map remove_empty_node t6 in
  ret (match first_some find_body t7 with Some ch => ch | None => t7 end).

(** [BeautifulSoup(raw_html, "lxml")] *)
Variable parse : string -> list node.
(** [body.decode_contents()] / [str(soup)] *)
Variable serialise : list node -> string.

Definition clean_html (raw_html base_url : string) : M string :=
  let* out := clean_tree base_url (parse raw_html) in ret (serialise out).

(* ------------------------------------------------------------------ *)
(** ** Chapters and [build_epub] *)

Definition dq : string := String.String (ascii_of_nat 34) EmptyString.
Definition nl : string := String.String (ascii_of_nat 10) EmptyString.

(** [s.replace(c, r)] for a one-character [c]. *)
Definition replace_char (c : ascii) (r s : string) : string :=
  String.concat ""
    (map (fun x => if Ascii.eqb x c then r else String.String x EmptyString)
         (String.list_ascii_of_string s)).

Definition make_chapter_body (title url content_html : string) : string :=
  let safe_title :=
    replace_char (ascii_of_nat 34) "&quot;"
      (replace_char ">" "&gt;" (replace_char "<" "&lt;" title)) in
  let safe_url := replace_char (ascii_of_nat 34) "&quot;" (replace_char "&" "&amp;" url) in
  "<h1 class=" +:+ dq +:+ "chapter-title" +:+ dq +:+ ">" +:+ safe_title +:+ "</h1>" +:+ nl +:+
  "<p class=" +:+ dq +:+ "source-url" +:+ dq +:+ ">Source: <a href=" +:+ dq +:+ safe_url
    +:+ dq +:+ ">" +:+ safe_url +:+ "</a></p>" +:+ nl +:+
  "<hr class=" +:+ dq +:+ "chapter-rule" +:+ dq +:+ "/>" +:+ nl +:+
  content_html.

(** Decimal digits of a natural number. *)
Fixpoint digits_aux (fuel n : nat) (acc : string) : string :=
  match fuel with
  | O => acc
  | S f =>
      let acc' := String.String (ascii_of_nat (48 + n mod 10)) acc in
      if (n <? 10)%nat then acc' else digits_aux f (n / 10) acc'
  end.

Definition nat_str (n : nat) : string := digits_aux (S n) n "".

(** [f"{idx:03d}"] *)
(** The value of a string of ASCII decimal digits, read after [acc]. *)
Fixpoint digits_value (l : list ascii) (acc : Z) : option Z :=
  match l with
  | [] => Some acc
  | c :: r =>
      let n := nat_of_ascii c in
      if ((48 <=? n) && (n <=? 57))%nat
      then digits_value r (10 * acc + Z.of_nat (n - 48))
      else None
  end.

Definition pad3 (n : nat) : string :=
  let s := nat_str n in
  String.concat "" (repeat "0" (3 - String.length s)) +:+ s.

(** [f"chapter_{idx:03d}.xhtml"] *)
Definition chapter_file_name (idx : nat) : string :=
  "chapter_" +:+ pad3 idx +:+ ".xhtml".

(** [fetch_page(url, session, timeout)] at the [idx]-th iteration:
    [Some (html, final_url)], or [None] when it raises. *)
Variable fetch_page : nat -> string -> option (string * string).
(** readability's [Document(html)]: [Some (short_title, title, summary)],
    or [None] when it raises. *)
Variable readability : string -> option (string * string * string).
(** [urlparse(url).netloc] *)
Variable netloc : string -> string.

Definition extract_article (html url : string) : option (string * string) :=
  '(short, long, body) ← readability html;
  let title := if negb (String.eqb short "") then short
               else if negb (String.eqb long "") then long
               else netloc url in
  Some (Py.strip title, body).

Definition CSS_ITEM : epub_item :=
  mk_item "styles" "styles.css" "text/css" "(the CSS constant)".

(** One iteration of the [for idx, url in enumerate(urls, start=1)] loop:
    the state of [clean_html] and the chapters so far. *)
Definition build_step (st : istate) (chapters : list epub_html)
    (idx : nat) (url : string) : istate * list epub_html :=
  match fetch_page idx url with
  | None => (st, chapters)
  | Some (html, final_url) =>
      match extract_article html final_url with
      | None => (st, chapters)
      | Some (article_title, raw_content) =>
          let '(r, st1) := clean_html raw_content final_url st in
          let clean := match r with Some c => c | None => raw_content end in
          let body_html := make_chapter_body article_title final_url clean in
          let chap := mk_html article_title (chapter_file_name idx) "en"
                              body_html ["styles.css"] in
          (mk_ist (cache st1) (book st1 ++ [Html chap]) (fetched st1),
           chapters ++ [chap])
      end
  end.

Fixpoint build_loop (st : istate) (chapters : list epub_html)
    (idx : nat) (urls : list string) : istate * list epub_html :=
  match urls with
  | [] => (st, chapters)
  | url :: rest =>
      let '(st', chapters') := build_step st chapters idx url in
      build_loop st' chapters' (S idx) rest
  end.

Inductive spine_entry := SpineNav | SpineChap (h : epub_html).

(** [epub.Link(href, title, uid)] *)
Record toc_link := mk_link { l_href : string; l_title : string; l_uid : string }.

Record build_result := mk_result {
  r_count : nat;                  (** the returned number of chapters *)
  r_chapters : list epub_html;
  r_book : list book_item;        (** the items, in [add_item] order *)
  r_toc : list toc_link;
  r_spine : list spine_entry;
  r_written : bool }.             (** [write_epub] was called *)

Definition build_epub (urls : list string) : build_result :=
  let st0 := mk_ist ∅ [Item CSS_ITEM] [] in
  let '(st, chapters) := build_loop st0 [] 1 urls in
  match chapters with
  | [] => mk_result 0 [] (book st) [] [] false
  | _ =>
      let toc := map (fun c => mk_link (h_file_name c) (h_title c) (h_file_name c)) chapters in
      mk_result (length chapters) chapters (book st ++ [Ncx; Nav]) toc
                (SpineNav :: map SpineChap chapters) true
  end.

End Pipeline.

(* ------------------------------------------------------------------ *)
(** ** [build_and_send] (auto.py) *)

(** What [build_and_send] ends with: a return value, or an exception
    propagated from [send_epub_via_smtp]. *)
Inductive outcome := Returned (r : option nat) | Raised.

(** [urls] is [read_urls(urls_file)]; [sent] is the set stored in the state
    file; [build new_urls] is what [build_epub] returns; [send_ok] says
    whether [send_epub_via_smtp] returns or raises.  The result pairs the
    outcome with the set stored in the state file afterwards. *)
Definition build_and_send (urls : list string) (sent : gset string)
    (build : list string -> nat) (send_ok : bool) : outcome * gset string :=
  match urls with
  | [] => (Returned None, sent)
  | _ =>
      let new_urls := filter (fun u => u ∉ sent) urls in
      match new_urls with
      | [] => (Returned None, sent)
      | _ =>
          let built := build new_urls in
          if (built =? 0)%nat then (Returned (Some 0%nat), sent)
          else if negb send_ok then (Raised, sent)
          else if (built =? length new_urls)%nat
          then (Returned (Some built), sent ∪ list_to_set new_urls)
          else (Returned (Some built), sent)
      end
  end.

(* ------------------------------------------------------------------ *)
(** ** The text files of auto.py and main.py

    [read_urls], [load_sent_urls], [save_sent_urls] and [slugify] work on
    Python [str] values, i.e. sequences of Unicode code points; here a text
    is a [list N] of code points.  [Path.read_text] decodes the UTF-8 file
    and translates [\r\n] and [\r] into [\n] (universal newlines);
    [Path.write_text] writes [\n] as it is (POSIX line separator). *)

Module Txt.

Local Open Scope N_scope.

Definition text := list N.

(** [Py_UNICODE_ISLINEBREAK], the line boundaries of [str.splitlines]. *)
Definition is_linebreak (c : N) : bool :=
  existsb (N.eqb c) [10; 11; 12; 13; 28; 29; 30; 133; 8232; 8233].

(** [Py_UNICODE_ISSPACE], the characters [str.strip()] removes. *)
Definition is_space (c : N) : bool :=
  ((9 <=? c) && (c <=? 13)) || ((28 <=? c) && (c <=? 32)) ||
  ((8192 <=? c) && (c <=? 8202)) ||
  existsb (N.eqb c) [133; 160; 5760; 8232; 8233; 8239; 8287; 12288].

Fixpoint drop_while (p : N -> bool) (l : text) : text :=
  match l with
  | [] => []
  | c :: r => if p c then drop_while p r else l
  end.

(** [s.strip()] *)
Definition strip (s : text) : text :=
  rev (drop_while is_space (rev (drop_while is_space s))).

(** The newline translation of [read_text]. *)
Fixpoint universal_newlines (l : text) : text :=
  match l with
  | [] => []
  | c :: r =>
      if (c =? 13) then
        10 :: match r with
              | d :: r' => if (d =? 10) then universal_newlines r' else universal_newlines r
              | [] => []
              end
      else c :: universal_newlines r
  end.

(** [s.splitlines()]: [\r\n] is one boundary; no empty last line. *)
Fixpoint splitlines_aux (l : text) (cur : text) : list text :=
  match l with
  | [] => match cur with [] => [] | _ => [rev cur] end
  | c :: r =>
      if is_linebreak c then
        rev cur ::
          (if (c =? 13) then
             match r with
             | d :: r' => if (d =? 10) then splitlines_aux r' [] else splitlines_aux r []
             | [] => splitlines_aux r []
             end
           else splitlines_aux r [])
      else splitlines_aux r (c :: cur)
  end.

Definition splitlines (s : text) : list text := splitlines_aux s [].

(** [s.startswith("#")] *)
Definition starts_hash (s : text) : bool :=
  match s with c :: _ => (c =? 35) | [] => false end.

Definition is_empty (s : text) : bool := match s with [] => true | _ => false end.

(** [read_urls(path)], given the decoded content of the file. *)
Definition read_urls (content : text) : list text :=
  List.filter (fun line => negb (is_empty line) && negb (starts_hash line))
    (map strip (splitlines (universal_newlines content))).

(** [load_sent_urls(state_file)]: [None] when the file does not exist;
    [{line.strip() for line in lines if line.strip() and not
    line.strip().startswith("#")}]. *)
Definition load_sent_urls (file : option text) : gset text :=
  match file with
  | None => ∅
  | Some content =>
      list_to_set
        (map strip
           (List.filter (fun line => negb (is_empty (strip line)) &&
                                     negb (starts_hash (strip line)))
              (splitlines (universal_newlines content))))
  end.

(** [<] on [str]: code point by code point. *)
Fixpoint str_lt (a b : text) : bool :=
  match a, b with
  | [], [] => false
  | [], _ :: _ => true
  | _ :: _, [] => false
  | x :: a', y :: b' => (x <? y) || ((x =? y) && str_lt a' b')
  end.

Fixpoint insert_sorted (x : text) (l : list text) : list text :=
  match l with
  | [] => [x]
  | y :: r => if str_lt y x then y :: insert_sorted x r else x :: y :: r
  end.

(** [sorted(...)] *)
Definition sorted (l : list text) : list text := fold_right insert_sorted [] l.

(** [sep.join(l)] *)
Fixpoint join (sep : text) (l : list text) : text :=
  match l with
  | [] => []
  | x :: r => match r with [] => x | _ => x ++ sep ++ join sep r end
  end.

(** [save_sent_urls(state_file, sent_urls)]: the content written. *)
Definition save_sent_urls (sent_urls : gset text) : text :=
  let content := join [10] (sorted (elements sent_urls)) in
  if is_empty content then content else content ++ [10].

Section Slugify.
(** [str.isalnum()] on the code points from 128 on (Unicode data). *)
Variable unicode_alnum : N -> bool.

(** [\w] of a [str] pattern: alphanumeric or [_]. *)
Definition is_word (c : N) : bool :=
  if (c <? 128) then
    ((48 <=? c) && (c <=? 57)) || ((65 <=? c) && (c <=? 90)) ||
    ((97 <=? c) && (c <=? 122)) || (c =? 95)
  else unicode_alnum c.

(** [re.sub(r"[^\w\-.]", "_", value)] *)
Definition sub_unsafe (s : text) : text :=
  map (fun c => if is_word c || (c =? 45) || (c =? 46) then c else 95) s.

(** [s.strip("_")] *)
Definition strip_underscores (s : text) : text :=
  rev (drop_while (N.eqb 95) (rev (drop_while (N.eqb 95) s))).

Definition PAGESTACK : text := [112; 97; 103; 101; 115; 116; 97; 99; 107].

(** [slugify(value)] *)
Definition slugify (value : text) : text :=
  let s := strip_underscores (sub_unsafe value) in
  if is_empty s then PAGESTACK else s.
End Slugify.

End Txt.

(* ------------------------------------------------------------------ *)
(** ** Derived notions used in the statements *)

(** Induction on trees, with a hypothesis for every child. *)
Fixpoint node_ind' (P : node -> Prop)
    (fE : forall t a ch, Forall P ch -> P (Elem t a ch))
    (fT : forall s, P (Text s)) (fC : forall s, P (Comment s)) (n : node) : P n :=
  match n with
  | Elem t a ch =>
      fE t a ch
        ((fix go (l : list node) : Forall P l :=
            match l with
            | [] => @List.Forall_nil node P
            | x :: r => @List.Forall_cons node P x r (node_ind' P fE fT fC x) (go r)
            end) ch)
  | Text s => fT s
  | Comment s => fC s
  end.

(** Every element of the tree satisfies [P] (on its tag and attributes). *)
Fixpoint all_elems (P : string -> attrs -> bool) (n : node) : bool :=
  match n with
  | Elem t a ch => P t a && forallb (all_elems P) ch
  | _ => true
  end.

Section Derived.
Variable urljoin : string -> string -> option string.

(** The absolute URL that [process_images] looks up in the cache for an
    [<img>]: [None] when the image is decomposed as empty or as a tracking
    pixel, when it is a data URI, or when [urljoin] raises. *)
Definition img_target (base_url : string) (a : attrs) : option string :=
  let src := img_src a in
  if String.eqb src "" then None
  else if tracking_pixel (attr_get_d "width" "" a) (attr_get_d "height" "" a) then None
  else if Py.startswith "data:" src then None
  else urljoin base_url src.
End Derived.

(** No HTML comment is left in the tree. *)
Fixpoint comment_free (n : node) : bool :=
  match n with
  | Elem _ _ ch => forallb comment_free ch
  | Text _ => true
  | Comment _ => false
  end.

(** Every [<p>], [<div>] and [<span>] of the tree has non-blank text or an
    [<img>] below it. *)
Fixpoint blocks_nonempty (n : node) : bool :=
  match n with
  | Elem t _ ch =>
      (negb (mem t ["p"; "div"; "span"]) || existsb has_text ch || existsb has_img ch)
      && forallb blocks_nonempty ch
  | _ => true
  end.

(** The internal paths held by the image cache. *)
Definition cached_paths (c : gmap string string) : list string := (map_to_list c).*2.

(** An [<img>] either has a data-URI source, or its [src] is a path of the
    cache and it carries only allow-listed attributes. *)
Definition embedded_or_data (c : gmap string string) (t : string) (a : attrs) : bool :=
  negb (String.eqb t "img") || Py.startswith "data:" (img_src a) ||
  (match attr_get "src" a with
   | Some p => bool_decide (p ∈ cached_paths c)
   | None => false
   end && forallb (fun kv => mem kv.1 keep_attrs) a).

(** The character [c] does not occur in [s]. *)
Definition lacks (c : ascii) (s : string) : bool :=
  negb (existsb (Ascii.eqb c) (String.list_ascii_of_string s)).

(** Decoding of the two entities [&amp;] and [&quot;], left to right. *)
Fixpoint unescape_amp_quot (l : list ascii) : list ascii :=
  match l with
  | "&"%char :: "a"%char :: "m"%char :: "p"%char :: ";"%char :: r =>
      "&"%char :: unescape_amp_quot r
  | "&"%char :: "q"%char :: "u"%char :: "o"%char :: "t"%char :: ";"%char :: r =>
      ascii_of_nat 34 :: unescape_amp_quot r
  | c :: r => c :: unescape_amp_quot r
  | [] => []
  end.

(** The chapters among the book's items, in [add_item] order. *)
Fixpoint html_items (l : list book_item) : list epub_html :=
  match l with
  | [] => []
  | Html h :: r => h :: html_items r
  | _ :: r => html_items r
  end.

Definition is_stylesheet (x : book_item) : bool :=
  match x with Item i => String.eqb (file_name i) "styles.css" | _ => false end.

Definition is_image_item (x : book_item) : Prop :=
  exists i, x = Item i /\ String.prefix "images/" (file_name i) = true.

(** How image processing moves the run state: cache entries are never
    changed, only URLs missing from the cache are downloaded, and only
    image items are added to the book. *)
Definition advances (st st' : istate) : Prop :=
  (forall k v, cache st !! k = Some v -> cache st' !! k = Some v) /\
  (exists l, fetched st' = fetched st ++ l /\ forall k, k ∈ l -> cache st !! k = None) /\
  (exists l, book st' = book st ++ l /\ Forall is_image_item l).


Section Loop.
Variable fetch_page : nat -> string -> option (string * string).
Variable readability : string -> option (string * string * string).
Variable netloc : string -> string.

(** The loop iteration at [idx] gets past fetching and extraction. *)
Definition url_ok (idx : nat) (url : string) : bool :=
  match fetch_page idx url with
  | Some (html, final_url) =>
      match extract_article readability netloc html final_url with
      | Some _ => true
      | None => false
      end
  | None => false
  end.

(** The 1-based input positions, from [idx] on, whose iteration succeeds. *)
Fixpoint ok_positions (idx : nat) (urls : list string) : list nat :=
  match urls with
  | [] => []
  | u :: r => if url_ok idx u then idx :: ok_positions (S idx) r else ok_positions (S idx) r
  end.
End Loop.

(* ------------------------------------------------------------------ *)
(** ** Concrete primitives for the examples *)

Module Demo.

(** Raises on a malformed IPv6 host, as Python's [urljoin] does. *)
Definition urljoin (base u : string) : option string :=
  if Py.startswith "http://[" u then None
  else if Py.startswith "http" u then Some u else Some (base +:+ u).
Definition md5_10 (s : string) : string := "0123456789".
Definition guess_extension (m : string) : option string :=
  if String.eqb m "image/jpeg" then Some ".jpg"
  else if String.eqb m "image/png" then Some ".png" else None.
Definition downsample (m d : string) : string := d.
(** Every download succeeds, as a PNG. *)
Definition net_ok (n : nat) (u : string) : option (string * string) :=
  Some ("bytes", "image/png").
(** The first download fails, later ones succeed. *)
Definition net_flaky (n : nat) (u : string) : option (string * string) :=
  match n with O => None | _ => Some ("bytes", "image/png") end.

Definition st0 : istate := mk_ist ∅ [] [].

Definition clean (net : nat -> string -> option (string * string))
    (t : list node) : option (list node) * istate :=
  clean_tree urljoin md5_10 guess_extension net downsample "https://a.test/" t st0.

Definition doc (body : list node) : list node :=
  [Elem "html" [] [Elem "body" [] body]].

Definition pimg := process_img urljoin md5_10 guess_extension net_ok downsample.

(** The parser gives one image whose URL makes [urljoin] raise. *)
Definition parse (raw : string) : list node :=
  doc [Elem "img" [("src", "http://[bad")] []].
Definition serialise (ns : list node) : string := "<cleaned/>".
Definition readability (html : string) : option (string * string * string) :=
  Some ("T", "T", "<p/>").
Definition netloc (u : string) : string := u.
Definition fetch_all (idx : nat) (u : string) : option (string * string) :=
  Some ("<html/>", u).
(** The fetch of the first URL fails. *)
Definition fetch_first_fails (idx : nat) (u : string) : option (string * string) :=
  if (idx =? 1)%nat then None else Some ("<html/>", u).

Definition build (fp : nat -> string -> option (string * string)) (urls : list string) :=
  build_epub urljoin md5_10 guess_extension net_ok downsample parse serialise fp
             readability netloc urls.

(** A page with a comment, a script, an empty paragraph, an image known only
    by its [srcset] and an inline [data:] image. *)
Definition rich : list node :=
  doc [Comment "ad"; Elem "script" [] [Text "x()"]; Elem "p" [] [];
       Elem "div" [] [Elem "img" [("srcset", "a.png 1x, b.png 2x")] []];
       Elem "p" [] [Elem "img" [("src", "data:image/png;base64,AA")] []; Text "hi"]].

(** Every page holds the same image twice. *)
Definition parse_dup (raw : string) : list node :=
  doc [Elem "img" [("src", "pic.png")] []; Elem "img" [("src", "pic.png")] []].

Definition loop_dup (net : nat -> string -> option (string * string)) (urls : list string) :=
  build_loop urljoin md5_10 guess_extension net downsample parse_dup serialise fetch_all
             readability netloc (mk_ist ∅ [Item CSS_ITEM] []) [] 1 urls.

(** A Python [str] of ASCII characters as its code points. *)
Definition txt (s : string) : Txt.text :=
  map (fun c => N.of_nat (nat_of_ascii c)) (String.list_ascii_of_string s).

End Demo.

(* ================================================================== *)
(** * Proofs *)

Section Proofs.

Variable urljoin : string -> string -> option string.
Variable md5_10 : string -> string.
Variable guess_extension : string -> option string.
Variable fetch_binary : nat -> string -> option (string * string).
Variable downsample : string -> string -> string.
Variable parse : string -> list node.
Variable serialise : list node -> string.

Local Abbreviation process_img := (process_img urljoin md5_10 guess_extension fetch_binary downsample).
Local Abbreviation process_node := (process_node urljoin md5_10 guess_extension fetch_binary downsample).
Local Abbreviation process_images := (process_images urljoin md5_10 guess_extension fetch_binary downsample).
Local Abbreviation clean_tree := (clean_tree urljoin md5_10 guess_extension fetch_binary downsample).
Local Abbreviation clean_html := (clean_html urljoin md5_10 guess_extension fetch_binary downsample parse serialise).
Local Abbreviation image_path := (image_path md5_10 guess_extension).
Local Abbreviation img_target := (img_target urljoin).

(** ** How the run state advances *)

Lemma advances_refl st : advances st st.
Proof.
  split; [done|]. split.
  - exists []. rewrite app_nil_r. split; [done|]. intros k Hk. inversion Hk.
  - exists []. rewrite app_nil_r. split; [done|constructor].
Qed.

Lemma advances_trans st1 st2 st3 :
  advances st1 st2 -> advances st2 st3 -> advances st1 st3.
Proof.
  intros (Hc1 & (l1 & Hf1 & Hn1) & (b1 & Hb1 & Hi1))
         (Hc2 & (l2 & Hf2 & Hn2) & (b2 & Hb2 & Hi2)).
  split; [eauto|]. split.
  - exists (l1 ++ l2). rewrite Hf2, Hf1, app_assoc. split; [done|].
    intros k Hk. apply elem_of_app in Hk as [Hk|Hk]; [eauto|].
    specialize (Hn2 k Hk). destruct (cache st1 !! k) eqn:E; [|done].
    apply Hc1 in E. congruence.
  - exists (b1 ++ b2). rewrite Hb2, Hb1, app_assoc. split; [done|].
    apply Forall_app; auto.
Qed.

Lemma prefix_images s : String.prefix "images/" ("images/" +:+ s) = true.
Proof.
  simpl. repeat (destruct (ascii_dec _ _); [|congruence]).
  destruct s; reflexivity.
Qed.

Lemma process_img_advances base parent a st :
  advances st (snd (process_img base parent a st)).
Proof.
  unfold process_img, bind, lift, ret.
  repeat (case_match; try apply advances_refl); simplify_eq/=.
  - (* downloaded and registered *)
    split; [|split].
    + intros k v Hk. simpl. rewrite lookup_insert_ne; [done|]. congruence.
    + eexists. split; [reflexivity|]. intros k Hk.
      apply list_elem_of_singleton in Hk. subst. done.
    + eexists. split; [reflexivity|]. repeat constructor.
      eexists. split; [reflexivity|]. apply prefix_images.
  - (* download failed *)
    split; [intros; done|]. split.
    + eexists. split; [reflexivity|]. intros k Hk.
      apply list_elem_of_singleton in Hk. subst. done.
    + exists []. rewrite app_nil_r. split; [done|constructor].
Qed.

Lemma traverse_advances {A B} (f : A -> M B) (l : list A) :
  (forall x st, x ∈ l -> advances st (snd (f x st))) ->
  forall st, advances st (snd (traverse f l st)).
Proof.
  induction l as [|x l IH]; intros Hf st; simpl; [apply advances_refl|].
  pose proof (Hf x st (list_elem_of_here x l)) as H1.
  unfold bind. destruct (f x st) as [[y|] st1]; simpl in H1; [|exact H1].
  assert (H2 : advances st1 (snd (traverse f l st1))).
  { apply IH. intros z st' Hz. apply Hf. by apply list_elem_of_further. }
  destruct (traverse f l st1) as [[ys|] st2]; simpl in *;
    eapply advances_trans; eauto.
Qed.

Lemma process_node_advances base n :
  forall parent st, advances st (snd (process_node base parent n st)).
Proof.
  induction n as [t a ch IH| |] using node_ind'; intros parent st; simpl;
    try apply advances_refl.
  destruct (String.eqb t "img"); [apply process_img_advances|].
  assert (H : advances st (snd (traverse (process_node base t) ch st))).
  { apply traverse_advances. intros x st' Hx.
    rewrite Forall_forall in IH. by apply IH. }
  unfold bind. destruct (traverse (process_node base t) ch st) as [[ys|] st2];
    simpl in *; done.
Qed.

Lemma process_images_advances base ns st :
  advances st (snd (process_images base ns st)).
Proof.
  unfold process_images.
  assert (H : advances st (snd (traverse (process_node base "[document]") ns st))).
  { apply traverse_advances. intros. apply process_node_advances. }
  unfold bind. destruct (traverse _ ns st) as [[ys|] st2]; simpl in *; done.
Qed.

Lemma clean_html_advances raw base st :
  advances st (snd (clean_html raw base st)).
Proof.
  unfold clean_html, clean_tree, bind, lift, ret.
  pose proof (process_images_advances base
     (map srcset_node (flat_map drop_unwanted_node
        (flat_map remove_comments_node (parse raw)))) st) as H.
  destruct (process_images _ _ st) as [[ys|] st2]; simpl in *; [|done].
  destruct (mapM _ ys); simpl; done.
Qed.


(** ** One [<img>] of [process_images] *)

Lemma img_target_some base a abs :
  img_target base a = Some abs ->
  String.eqb (img_src a) "" = false /\
  tracking_pixel (attr_get_d "width" "" a) (attr_get_d "height" "" a) = false /\
  Py.startswith "data:" (img_src a) = false /\
  urljoin base (img_src a) = Some abs.
Proof.
  unfold img_target. cbv zeta.
  destruct (String.eqb (img_src a) ""); [discriminate|].
  destruct (tracking_pixel _ _); [discriminate|].
  destruct (Py.startswith _ _); [discriminate|]. auto.
Qed.

Lemma process_img_hit base parent a abs p st :
  img_target base a = Some abs -> cache st !! abs = Some p ->
  process_img base parent a st =
    (Some [Elem "img" (sanitise_attrs (attr_set "src" p a)) []], st).
Proof.
  intros Ht Hc. apply img_target_some in Ht as (H1 & H2 & H3 & H4).
  unfold process_img, bind, lift, ret. cbv zeta.
  rewrite H1, H2, H3, H4, Hc. reflexivity.
Qed.

Lemma process_img_miss base parent a abs st :
  img_target base a = Some abs -> cache st !! abs = None ->
  (fetch_binary (length (fetched st)) abs = None ->
   process_img base parent a st =
     (Some [], mk_ist (cache st) (book st) (fetched st ++ [abs]))) /\
  (forall data mime, fetch_binary (length (fetched st)) abs = Some (data, mime) ->
   process_img base parent a st =
     (Some (wrap_figure parent (sanitise_attrs (attr_set "src" (image_path abs mime) a))),
      mk_ist (<[abs := image_path abs mime]> (cache st))
             (book st ++ [Item (mk_item ("img_" +:+ md5_10 abs) (image_path abs mime)
                                        mime (downsample mime data))])
             (fetched st ++ [abs]))).
Proof.
  intros Ht Hc. apply img_target_some in Ht as (H1 & H2 & H3 & H4).
  unfold process_img, bind, lift, ret. cbv zeta.
  rewrite H1, H2, H3, H4, Hc. split.
  - intros Hf. rewrite Hf. reflexivity.
  - intros data mime Hf. rewrite Hf. reflexivity.
Qed.








(** ** Claims on [process_images] *)



(** ** Attribute dictionaries *)

Ltac str_cases :=
  repeat (simpl in *; match goal with
    | |- context [String.eqb ?x ?y] => destruct (String.eqb_spec x y); subst
    | H : context [String.eqb ?x ?y] |- _ => destruct (String.eqb_spec x y); subst
    end); simpl in *; try congruence.

Lemma attr_get_del_same k a : attr_get k (attr_del k a) = None.
Proof. induction a as [|[k' v] a IH]; str_cases. Qed.

Lemma attr_get_del_ne k k' a : k <> k' -> attr_get k (attr_del k' a) = attr_get k a.
Proof. intros Hne. induction a as [|[k'' v] a IH]; str_cases. Qed.

Lemma has_attr_get k a : has_attr k a = false -> attr_get k a = None.
Proof. unfold has_attr. by destruct (attr_get k a). Qed.

Lemma attr_get_map_replace k k' v a :
  attr_get k (map (fun '(k'', v'') => if String.eqb k' k'' then (k'', v) else (k'', v'')) a) =
  if String.eqb k k' then option_map (fun _ => v) (attr_get k a) else attr_get k a.
Proof. induction a as [|[k'' v''] a IH]; str_cases. Qed.

Lemma attr_get_set_same k v a : attr_get k (attr_set k v a) = Some v.
Proof.
  unfold attr_set. destruct (has_attr k a) eqn:Hh.
  - rewrite attr_get_map_replace, String.eqb_refl.
    unfold has_attr in Hh. by destruct (attr_get k a).
  - apply has_attr_get in Hh. induction a as [|[k' v'] a IH]; str_cases; auto.
Qed.

Lemma attr_get_set_ne k k' v a : k <> k' -> attr_get k (attr_set k' v a) = attr_get k a.
Proof.
  intros Hne. unfold attr_set. destruct (has_attr k' a).
  - rewrite attr_get_map_replace. str_cases.
  - induction a as [|[k'' v'] a IH]; str_cases.
Qed.

Lemma has_attr_set_ne k k' v a : k <> k' -> has_attr k (attr_set k' v a) = has_attr k a.
Proof. intros Hne. unfold has_attr. by rewrite attr_get_set_ne. Qed.

Lemma handle_srcset_no_srcset a : attr_get "srcset" (handle_srcset a) = None.
Proof.
  unfold handle_srcset. cbv zeta.
  match goal with |- attr_get _ (if has_attr _ ?a1 then _ else _) = _ =>
    destruct (has_attr "srcset" a1) eqn:Hh end.
  - apply attr_get_del_same.
  - by apply has_attr_get.
Qed.


Lemma srcset_candidates_empty : srcset_candidates "" = [].
Proof. reflexivity. Qed.

(** ** Claims on the passes of [clean_html] *)

Lemma srcset_node_removes n :
  all_elems (fun t a => negb (String.eqb t "img") || negb (has_attr "srcset" a))
            (srcset_node n) = true.
Proof.
  induction n as [t a ch IH| |] using node_ind'; simpl; [|done|done].
  apply andb_true_intro. split.
  - destruct (String.eqb t "img"); simpl; [|done].
    unfold has_attr. by rewrite handle_srcset_no_srcset.
  - apply forallb_forall. intros x Hx. apply in_map_iff in Hx as (y & <- & Hy).
    rewrite Forall_forall in IH. apply IH. by apply list_elem_of_In.
Qed.

(** C8: an [<img>] with no usable [src] (missing or empty) whose [srcset]
    lists candidates gets the last listed candidate URL as its [src]; the
    [srcset] attribute is removed from every [<img>] of the tree, whether a
    candidate was promoted or not. *)
Theorem C8_srcset_promotion (a : attrs) (c : string) :
  Py.truthy (attr_get "src" a) = false ->
  last (srcset_candidates (attr_get_d "srcset" "" a)) = Some c ->
  attr_get "src" (handle_srcset a) = Some c /\
  attr_get "srcset" (handle_srcset a) = None /\
  (forall n, all_elems (fun t a => negb (String.eqb t "img") || negb (has_attr "srcset" a))
                       (srcset_node n) = true).
Proof.
  intros Hsrc Hlast. split; [|split; [apply handle_srcset_no_srcset|apply srcset_node_removes]].
  unfold handle_srcset. cbv zeta.
  destruct (String.eqb_spec (attr_get_d "srcset" "" a) "") as [He|Hne].
  - rewrite He in Hlast. discriminate.
  - rewrite Hsrc. simpl. rewrite Hlast.
    destruct (has_attr "srcset" (attr_set "src" c a)).
    + rewrite attr_get_del_ne; [apply attr_get_set_same|discriminate].
    + apply attr_get_set_same.
Qed.



Lemma forallb_filter_mem (l : list string) (a : attrs) :
  forallb (fun kv => mem kv.1 l) (List.filter (fun kv => mem kv.1 l) a) = true.
Proof.
  apply forallb_forall. intros x Hx. apply filter_In in Hx. tauto.
Qed.

(** C5 (amended): the attribute pass of [clean_html] deletes the
    deny-listed attributes (onclick, onload, onerror, class, id, style,
    data-src-retina, data-original, loading, decoding, fetchpriority, sizes,
    crossorigin, referrerpolicy) from every element other than [<img>] and
    keeps all their other attributes; the allow-list (src, href, alt, title,
    colspan, rowspan, width, height) is applied only to the images that
    [process_images] embeds, by download or from the cache. *)
Theorem C5_attribute_stripping :
  (forall n, all_elems (fun t a => String.eqb t "img" ||
                         forallb (fun kv => negb (mem kv.1 UNWANTED_ATTRS)) a)
                       (strip_attrs_node n) = true) /\
  (forall t a ch, t <> "img" ->
     strip_attrs_node (Elem t a ch) = Elem t (strip_unwanted_attrs a) (map strip_attrs_node ch)) /\
  (forall k v (a : attrs), In (k, v) a -> mem k UNWANTED_ATTRS = false ->
     In (k, v) (strip_unwanted_attrs a)) /\
  (forall base parent a st o st', img_target base a <> None ->
     process_img base parent a st = (Some o, st') ->
     forallb (all_elems (fun t a => negb (String.eqb t "img") ||
                          forallb (fun kv => mem kv.1 keep_attrs) a)) o = true).
Proof.
  split; [|split; [|split]].
  - intros n. induction n as [t a ch IH| |] using node_ind'; simpl; [|done|done].
    apply andb_true_intro. split.
    + destruct (String.eqb t "img"); simpl; [done|].
      apply forallb_forall. intros x Hx. unfold strip_unwanted_attrs in Hx.
      apply filter_In in Hx. tauto.
    + apply forallb_forall. intros x Hx. apply in_map_iff in Hx as (y & <- & Hy).
      rewrite Forall_forall in IH. apply IH. by apply list_elem_of_In.
  - intros t a ch Hne. simpl. by rewrite (proj2 (String.eqb_neq t "img") Hne).
  - intros k v a Hin Hm. apply filter_In. split; [done|]. cbn [fst]. rewrite Hm. done.
  - intros base parent a st o st' Ht Hp.
    destruct (img_target base a) as [abs|] eqn:Htg; [|done].
    destruct (cache st !! abs) as [p|] eqn:Hc.
    + rewrite (process_img_hit _ _ _ _ _ _ Htg Hc) in Hp. injection Hp as <- _.
      unfold sanitise_attrs. cbn [forallb all_elems].
      by rewrite forallb_filter_mem, orb_true_r.
    + destruct (process_img_miss _ parent _ _ _ Htg Hc) as [Hfail Hok].
      destruct (fetch_binary (length (fetched st)) abs) as [[data mime]|] eqn:Hf.
      * rewrite (Hok data mime eq_refl) in Hp. injection Hp as <- _.
        unfold wrap_figure, sanitise_attrs.
        destruct (mem parent _); cbn [forallb all_elems];
          rewrite ?forallb_filter_mem, ?orb_true_r; [done|].
        destruct (String.eqb _ ""); done.
      * rewrite (Hfail eq_refl) in Hp. injection Hp as <- _. done.
Qed.

(** ** [build_epub] *)

Variable fetch_page : nat -> string -> option (string * string).
Variable readability : string -> option (string * string * string).
Variable netloc : string -> string.

(* Unfolding the pipeline definitions, whose names are shadowed below. *)
Ltac unfold_build_step := unfold build_step.
Ltac unfold_build_epub := unfold build_epub.

Local Abbreviation extract_article := (extract_article readability netloc).
Local Abbreviation build_step := (build_step urljoin md5_10 guess_extension fetch_binary
  downsample parse serialise fetch_page readability netloc).
Local Abbreviation build_loop := (build_loop urljoin md5_10 guess_extension fetch_binary
  downsample parse serialise fetch_page readability netloc).
Local Abbreviation build_epub := (build_epub urljoin md5_10 guess_extension fetch_binary
  downsample parse serialise fetch_page readability netloc).
Local Abbreviation url_ok := (url_ok fetch_page readability netloc).
Local Abbreviation ok_positions := (ok_positions fetch_page readability netloc).

Definition chapter_or_image (x : book_item) : Prop :=
  is_image_item x \/ exists h, x = Html h.

Lemma html_items_app l1 l2 : html_items (l1 ++ l2) = html_items l1 ++ html_items l2.
Proof. induction l1 as [|[] l1 IH]; simpl; rewrite ?IH; done. Qed.

Lemma html_items_images l : Forall is_image_item l -> html_items l = [].
Proof. induction 1 as [|x l (i & -> & _) _ IH]; simpl; done. Qed.

Lemma build_step_ok st chs idx url :
  url_ok idx url = true ->
  exists chap l, snd (build_step st chs idx url) = chs ++ [chap] /\
    h_file_name chap = chapter_file_name idx /\ h_links chap = ["styles.css"] /\
    book (fst (build_step st chs idx url)) = book st ++ l ++ [Html chap] /\
    Forall is_image_item l.
Proof.
  unfold url_ok, build_step.
  destruct (fetch_page idx url) as [[html final]|]; [|discriminate].
  destruct (extract_article html final) as [[t raw]|]; [|discriminate].
  intros _.
  pose proof (clean_html_advances raw final st) as (_ & _ & (l & Hl & Hi)).
  destruct (clean_html raw final st) as [r st1]. simpl in *.
  eexists _, l. split; [reflexivity|]. split; [reflexivity|]. split; [reflexivity|].
  split; [|done]. rewrite Hl, app_assoc. done.
Qed.

Lemma build_step_fail st chs idx url :
  url_ok idx url = false -> build_step st chs idx url = (st, chs).
Proof.
  unfold url_ok, build_step.
  destruct (fetch_page idx url) as [[html final]|]; [|done].
  destruct (extract_article html final) as [[t raw]|]; [discriminate|done].
Qed.

Lemma build_loop_spec urls : forall st chs idx,
  exists news l,
    snd (build_loop st chs idx urls) = chs ++ news /\
    map h_file_name news = map chapter_file_name (ok_positions idx urls) /\
    Forall (fun c => h_links c = ["styles.css"]) news /\
    book (fst (build_loop st chs idx urls)) = book st ++ l /\
    Forall chapter_or_image l /\ html_items l = news.
Proof.
  induction urls as [|u urls IH]; intros st chs idx; simpl.
  - exists [], []. rewrite !app_nil_r. repeat split; constructor.
  - destruct (url_ok idx u) eqn:Hok.
    + destruct (build_step_ok st chs idx u Hok) as (chap & l1 & Hc & Hf & Hk & Hb & Hi).
      destruct (build_step st chs idx u) as [st1 chs1]. simpl in *.
      destruct (IH st1 chs1 (S idx)) as (news & l2 & Hc2 & Hf2 & Hk2 & Hb2 & Hi2 & Hh2).
      exists (chap :: news), (l1 ++ [Html chap] ++ l2).
      rewrite Hc2, Hc, <- app_assoc. split; [done|].
      split; [simpl; by rewrite Hf, Hf2|].
      split; [by constructor|].
      split; [rewrite Hc in Hb2; by rewrite Hb2, Hb, <- !app_assoc|].
      split.
      * apply Forall_app. split; [eapply Forall_impl; [exact Hi|]; by left|].
        constructor; [right; eauto|done].
      * rewrite !html_items_app, html_items_images by done. simpl. by rewrite Hh2.
    + rewrite build_step_fail by done. apply IH.
Qed.

Lemma ok_positions_bounds urls : forall idx i,
  i ∈ ok_positions idx urls -> (idx <= i < idx + length urls)%nat.
Proof.
  induction urls as [|u urls IH]; intros idx i Hi; simpl in *; [inversion Hi|].
  destruct (url_ok idx u).
  - apply elem_of_cons in Hi as [->|Hi]; [lia|]. apply IH in Hi. lia.
  - apply IH in Hi. lia.
Qed.

Lemma ok_positions_sorted urls : forall idx, StronglySorted lt (ok_positions idx urls).
Proof.
  induction urls as [|u urls IH]; intros idx; simpl; [constructor|].
  destruct (url_ok idx u); [|apply IH].
  constructor; [apply IH|]. apply Forall_forall. intros i Hi.
  apply ok_positions_bounds in Hi. lia.
Qed.

Lemma ok_positions_length urls : forall idx, (length (ok_positions idx urls) <= length urls)%nat.
Proof.
  induction urls as [|u urls IH]; intros idx; simpl; [lia|].
  destruct (url_ok idx u); simpl; specialize (IH (S idx)); lia.
Qed.

Lemma chapter_or_image_not_stylesheet l :
  Forall chapter_or_image l -> List.filter is_stylesheet l = [].
Proof.
  induction 1 as [|x l Hx _ IH]; simpl; [done|].
  destruct Hx as [(i & -> & Hp)|(h & ->)]; simpl; [|done].
  destruct (String.eqb_spec (file_name i) "styles.css") as [He|]; [|done].
  rewrite He in Hp. discriminate.
Qed.

Lemma build_epub_chapters urls :
  exists l,
    r_chapters (build_epub urls) = html_items l /\
    map h_file_name (html_items l) = map chapter_file_name (ok_positions 1 urls) /\
    Forall (fun c => h_links c = ["styles.css"]) (html_items l) /\
    Forall chapter_or_image l /\
    (html_items l <> [] ->
     r_count (build_epub urls) = length (html_items l) /\
     r_book (build_epub urls) = Item CSS_ITEM :: l ++ [Ncx; Nav] /\
     r_toc (build_epub urls) =
       map (fun c => mk_link (h_file_name c) (h_title c) (h_file_name c)) (html_items l) /\
     r_spine (build_epub urls) = SpineNav :: map SpineChap (html_items l) /\
     r_written (build_epub urls) = true) /\
    (html_items l = [] -> r_count (build_epub urls) = 0%nat).
Proof.
  unfold_build_epub.
  destruct (build_loop_spec urls (mk_ist ∅ [Item CSS_ITEM] []) [] 1)
    as (news & l & Hc & Hf & Hk & Hb & Hi & Hh).
  destruct (build_loop _ _ _ _) as [st chs]. simpl in *. subst chs.
  exists l. rewrite Hh. split; [by destruct news|].
  split; [done|]. split; [done|]. split; [done|].
  split; [|by intros ->].
  intros Hne. destruct news as [|c news]; [done|].
  rewrite Hb. done.
Qed.

(** C1 (amended): each chapter's internal file name is
    [chapter_<idx:03d>.xhtml], where [idx] is the 1-based position of its URL
    among ALL input URLs; the chapters are exactly the input positions whose
    fetch and extraction succeed, in strictly increasing order, with no
    placeholder for a failed URL; the numbers skip the positions of failed
    URLs. *)
Theorem C1_chapter_numbering (urls : list string) :
  map h_file_name (r_chapters (build_epub urls)) =
    map chapter_file_name (ok_positions 1 urls) /\
  StronglySorted lt (ok_positions 1 urls) /\
  Forall (fun i => 1 <= i <= length urls)%nat (ok_positions 1 urls).
Proof.
  destruct (build_epub_chapters urls) as (l & -> & Hf & _).
  split; [done|]. split; [apply ok_positions_sorted|].
  apply Forall_forall. intros i Hi. apply ok_positions_bounds in Hi. lia.
Qed.

(** C4: the number of chapters, and the count [build_epub] returns, is the
    number of URLs whose fetch and extraction both succeed (whatever
    happens to cleaning and images), hence at most the number of URLs; when
    cleaning raises, the chapter is still made, from the raw extracted
    fragment. *)
Theorem C4_chapter_count (urls : list string) :
  r_count (build_epub urls) = length (ok_positions 1 urls) /\
  length (r_chapters (build_epub urls)) = length (ok_positions 1 urls) /\
  (length (ok_positions 1 urls) <= length urls)%nat /\
  (forall st chs idx url html final_url title raw st1,
     fetch_page idx url = Some (html, final_url) ->
     extract_article html final_url = Some (title, raw) ->
     clean_html raw final_url st = (None, st1) ->
     snd (build_step st chs idx url) =
       chs ++ [mk_html title (chapter_file_name idx) "en"
                 (make_chapter_body title final_url raw) ["styles.css"]]).
Proof.
  destruct (build_epub_chapters urls) as (l & Hr & Hf & _ & _ & Hne & Hnil).
  assert (Hlen : length (html_items l) = length (ok_positions 1 urls)).
  { rewrite <- (length_map h_file_name), Hf. apply length_map. }
  split; [|split; [|split]].
  - destruct (html_items l) eqn:E.
    + rewrite Hnil by done. simpl in Hlen. by rewrite <- Hlen.
    + rewrite <- Hlen. apply Hne. done.
  - by rewrite Hr.
  - apply ok_positions_length.
  - intros st chs idx url html final_url title raw st1 Hp He Hc.
    unfold_build_step. rewrite Hp.
    rewrite He, Hc. reflexivity.
Qed.

(** C6: when at least one chapter is made, the book holds exactly one
    stylesheet item ([styles.css]) and every chapter links it; the table of
    contents has one entry per chapter, in chapter order; the spine is the
    navigation page followed by the chapters in the order they were added,
    which is the input order of the successful URLs. *)
Theorem C6_assembly (urls : list string) :
  r_chapters (build_epub urls) <> [] ->
  let chs := r_chapters (build_epub urls) in
  length (List.filter is_stylesheet (r_book (build_epub urls))) = 1%nat /\
  Forall (fun c => h_links c = ["styles.css"]) chs /\
  r_toc (build_epub urls) =
    map (fun c => mk_link (h_file_name c) (h_title c) (h_file_name c)) chs /\
  r_spine (build_epub urls) = SpineNav :: map SpineChap chs /\
  html_items (r_book (build_epub urls)) = chs /\
  map h_file_name chs = map chapter_file_name (ok_positions 1 urls) /\
  r_written (build_epub urls) = true.
Proof.
  intros Hne chs. subst chs.
  destruct (build_epub_chapters urls) as (l & Hr & Hf & Hk & Hi & Hsome & _).
  rewrite Hr in Hne |- *.
  destruct (Hsome Hne) as (_ & Hb & Ht & Hs & Hw).
  rewrite Hb, Ht, Hs, Hw.
  split.
  - simpl. rewrite List.filter_app, chapter_or_image_not_stylesheet by done. reflexivity.
  - split; [done|]. split; [done|]. split; [done|].
    split; [|done].
    simpl. rewrite html_items_app. simpl. by rewrite app_nil_r.
Qed.

(** ** Invariants of the cleaned tree *)

Lemma forallb_flat_map {A B} (f : A -> list B) (p : B -> bool) (l : list A) :
  forallb p (flat_map f l) = forallb (fun x => forallb p (f x)) l.
Proof. induction l as [|x l IH]; simpl; [done|]. by rewrite forallb_app, IH. Qed.

Lemma existsb_flat_map {A B} (f : A -> list B) (p : B -> bool) (l : list A) :
  existsb p (flat_map f l) = existsb (fun x => existsb p (f x)) l.
Proof. induction l as [|x l IH]; simpl; [done|]. by rewrite existsb_app, IH. Qed.

Lemma forallb_map_eq {A B} (f : A -> B) (p : B -> bool) (l : list A) :
  forallb p (map f l) = forallb (fun x => p (f x)) l.
Proof. induction l as [|x l IH]; simpl; [done|]. by rewrite IH. Qed.

Lemma forallb_impl_in {A} (p q : A -> bool) (l : list A) :
  (forall x, x ∈ l -> p x = true -> q x = true) ->
  forallb p l = true -> forallb q l = true.
Proof.
  intros H Hp. apply forallb_forall. intros x Hx. apply list_elem_of_In in Hx.
  apply H; [done|]. rewrite forallb_forall in Hp. apply Hp. by apply list_elem_of_In.
Qed.

Lemma forallb_Forall2 {A B} (R : A -> B -> Prop) (p : A -> bool) (q : B -> bool) l l' :
  Forall2 R l l' -> Forall (fun x => forall y, R x y -> p x = true -> q y = true) l ->
  forallb p l = true -> forallb q l' = true.
Proof.
  induction 1 as [|x y l l' Hxy _ IH]; intros HF Hp; simpl in *; [done|].
  inversion HF as [|? ? Hx Hl]; subst.
  apply andb_prop in Hp as [Hp1 Hp2]. rewrite (Hx y Hxy Hp1). simpl. auto.
Qed.

Ltac tsimpl :=
  cbn [all_elems forallb existsb flat_map map app remove_comments_node
       drop_unwanted_node srcset_node strip_attrs_node remove_empty_node
       comment_free has_text has_img blocks_nonempty andb orb negb].

Ltac kids IH :=
  let x := fresh "x" in let Hx := fresh "Hx" in
  intros x Hx; rewrite Forall_forall in IH; apply IH; exact Hx.

Lemma remove_comments_pres P n :
  all_elems P n = true -> forallb (all_elems P) (remove_comments_node n) = true.
Proof.
  induction n as [t a ch IH| |] using node_ind'; tsimpl; [|done|done].
  rewrite !andb_true_r. intros [-> Hch]%andb_prop. tsimpl.
  rewrite forallb_flat_map. eapply forallb_impl_in; [|exact Hch]. kids IH.
Qed.

Lemma remove_comments_clean n : forallb comment_free (remove_comments_node n) = true.
Proof.
  induction n as [t a ch IH| |] using node_ind'; tsimpl; [|done|done].
  rewrite andb_true_r, forallb_flat_map. apply forallb_forall. intros x Hx.
  apply list_elem_of_In in Hx. rewrite Forall_forall in IH. by apply IH.
Qed.

Lemma drop_unwanted_pres P n :
  all_elems P n = true -> forallb (all_elems P) (drop_unwanted_node n) = true.
Proof.
  induction n as [t a ch IH| |] using node_ind'; tsimpl; [|auto|auto].
  destruct (mem t UNWANTED_TAGS); [intros; done|]. tsimpl.
  rewrite !andb_true_r. intros [-> Hch]%andb_prop. tsimpl.
  rewrite forallb_flat_map. eapply forallb_impl_in; [|exact Hch]. kids IH.
Qed.

Lemma drop_unwanted_comment_free n :
  comment_free n = true -> forallb comment_free (drop_unwanted_node n) = true.
Proof.
  induction n as [t a ch IH| |] using node_ind'; tsimpl; [|done|done].
  destruct (mem t UNWANTED_TAGS); [intros; done|]. tsimpl. rewrite andb_true_r.
  intros Hch. rewrite forallb_flat_map. eapply forallb_impl_in; [|exact Hch]. kids IH.
Qed.

Lemma drop_unwanted_clean n :
  forallb (all_elems (fun t _ => negb (mem t UNWANTED_TAGS))) (drop_unwanted_node n) = true.
Proof.
  induction n as [t a ch IH| |] using node_ind'; tsimpl; [|done|done].
  destruct (mem t UNWANTED_TAGS) eqn:Hm; [done|]. tsimpl. rewrite Hm. tsimpl.
  rewrite andb_true_r, forallb_flat_map. apply forallb_forall. intros x Hx.
  apply list_elem_of_In in Hx. rewrite Forall_forall in IH. by apply IH.
Qed.

Lemma srcset_pres (P : string -> attrs -> bool) n :
  (forall a, P "img" a = true -> P "img" (handle_srcset a) = true) ->
  all_elems P n = true -> all_elems P (srcset_node n) = true.
Proof.
  intros HP. induction n as [t a ch IH| |] using node_ind'; tsimpl; [|done|done].
  intros [Ha Hch]%andb_prop. apply andb_true_intro. split.
  - destruct (String.eqb_spec t "img"); [subst; auto|done].
  - rewrite forallb_map_eq. eapply forallb_impl_in; [|exact Hch]. kids IH.
Qed.

Lemma srcset_comment_free n : comment_free n = true -> comment_free (srcset_node n) = true.
Proof.
  induction n as [t a ch IH| |] using node_ind'; tsimpl; [|done|done].
  intros Hch. rewrite forallb_map_eq. eapply forallb_impl_in; [|exact Hch]. kids IH.
Qed.

Lemma strip_attrs_pres (P : string -> attrs -> bool) n :
  (forall t a, t <> "img" -> P t a = true -> P t (strip_unwanted_attrs a) = true) ->
  all_elems P n = true -> all_elems P (strip_attrs_node n) = true.
Proof.
  intros HP. induction n as [t a ch IH| |] using node_ind'; tsimpl; [|done|done].
  intros [Ha Hch]%andb_prop. apply andb_true_intro. split.
  - destruct (String.eqb_spec t "img"); [done|auto].
  - rewrite forallb_map_eq. eapply forallb_impl_in; [|exact Hch]. kids IH.
Qed.

Lemma strip_attrs_comment_free n : comment_free n = true -> comment_free (strip_attrs_node n) = true.
Proof.
  induction n as [t a ch IH| |] using node_ind'; tsimpl; [|done|done].
  intros Hch. rewrite forallb_map_eq. eapply forallb_impl_in; [|exact Hch]. kids IH.
Qed.

Lemma remove_empty_pres P n :
  all_elems P n = true -> forallb (all_elems P) (remove_empty_node n) = true.
Proof.
  induction n as [t a ch IH| |] using node_ind'; tsimpl; [|auto|auto].
  destruct (_ && _ && _); [intros; done|]. tsimpl.
  rewrite !andb_true_r. intros [-> Hch]%andb_prop. tsimpl.
  rewrite forallb_flat_map. eapply forallb_impl_in; [|exact Hch]. kids IH.
Qed.

Lemma remove_empty_comment_free n :
  comment_free n = true -> forallb comment_free (remove_empty_node n) = true.
Proof.
  induction n as [t a ch IH| |] using node_ind'; tsimpl; [|auto|auto].
  destruct (_ && _ && _); [intros; done|]. tsimpl. rewrite andb_true_r.
  intros Hch. rewrite forallb_flat_map. eapply forallb_impl_in; [|exact Hch]. kids IH.
Qed.






(** [soup.find("body")] gives a part of the tree. *)
Section Body.
Variable Q : node -> bool.
Hypothesis Hher : forall t a ch, Q (Elem t a ch) = true -> forallb Q ch = true.

Lemma find_body_sub n : forall ch, find_body n = Some ch -> Q n = true -> forallb Q ch = true.
Proof.
  induction n as [t a ch0 IH| |] using node_ind'; intros ch Hf HQ; simpl in Hf; [|done|done].
  apply Hher in HQ.
  destruct (String.eqb t "body"); [by injection Hf as <-|].
  revert ch Hf. induction ch0 as [|x l IHl]; intros ch Hf; simpl in *; [done|].
  inversion IH as [|? ? Hx Hl]; subst. apply andb_prop in HQ as [HQx HQl].
  destruct (find_body x) eqn:E.
  - injection Hf as <-. by apply Hx.
  - by apply IHl.
Qed.

Lemma body_or_all_pres (t7 : list node) :
  forallb Q t7 = true ->
  forallb Q (match first_some find_body t7 with Some ch => ch | None => t7 end) = true.
Proof.
  intros H. destruct (first_some find_body t7) as [ch|] eqn:E; [|done].
  induction t7 as [|x l IH]; simpl in *; [done|].
  apply andb_prop in H as [Hx Hl].
  destruct (find_body x) eqn:Ex.
  - injection E as <-. by apply (find_body_sub x).
  - by apply IH.
Qed.
End Body.

Lemma all_elems_her P t a ch : all_elems P (Elem t a ch) = true -> forallb (all_elems P) ch = true.
Proof. simpl. by intros [_ ?]%andb_prop. Qed.


Lemma comment_her t a ch : comment_free (Elem t a ch) = true -> forallb comment_free ch = true.
Proof. done. Qed.

Lemma fix_links_pres (P : string -> attrs -> bool) base :
  (forall a h, P "a" a = true -> P "a" (attr_set "href" h a) = true) ->
  forall n n', fix_links_node urljoin base n = Some n' ->
  all_elems P n = true -> all_elems P n' = true.
Proof.
  intros HP n. induction n as [t a ch IH| |] using node_ind'; intros n' Hf Hn;
    simpl in Hf; [|by injection Hf as <-|by injection Hf as <-].
  apply andb_prop in Hn as [Ha Hch].
  destruct (String.eqb t "a" && has_attr "href" a) eqn:E; simpl in Hf.
  - destruct (urljoin base _) as [h|]; simpl in Hf; [|discriminate].
    destruct (mapM _ ch) as [ch'|] eqn:Em; simpl in Hf; [|discriminate].
    injection Hf as <-. simpl. apply andb_true_intro. split.
    + apply andb_prop in E as [Ht _]. apply String.eqb_eq in Ht. subst. auto.
    + eapply forallb_Forall2; [apply mapM_Some_1, Em| |exact Hch].
      eapply Forall_impl; [exact IH|]. intros x Hx y Hy. by apply Hx.
  - destruct (mapM _ ch) as [ch'|] eqn:Em; simpl in Hf; [|discriminate].
    injection Hf as <-. simpl. rewrite Ha. simpl.
    eapply forallb_Forall2; [apply mapM_Some_1, Em| |exact Hch].
    eapply Forall_impl; [exact IH|]. intros x Hx y Hy. by apply Hx.
Qed.

Lemma fix_links_comment_free base :
  forall n n', fix_links_node urljoin base n = Some n' ->
  comment_free n = true -> comment_free n' = true.
Proof.
  intros n. induction n as [t a ch IH| |] using node_ind'; intros n' Hf Hn;
    simpl in Hf; [|by injection Hf as <-|by injection Hf as <-].
  assert (Hk : forall ch', mapM (fix_links_node urljoin base) ch = Some ch' ->
                 forallb comment_free ch' = true).
  { intros ch' Em. eapply forallb_Forall2; [apply mapM_Some_1, Em| |exact Hn].
    eapply Forall_impl; [exact IH|]. intros x Hx y Hy. by apply Hx. }
  destruct (String.eqb t "a" && has_attr "href" a); simpl in Hf.
  - destruct (urljoin base _) as [h|]; simpl in Hf; [|discriminate].
    destruct (mapM _ ch) as [ch'|] eqn:Em; simpl in Hf; [|discriminate].
    injection Hf as <-. simpl. by apply Hk.
  - destruct (mapM _ ch) as [ch'|] eqn:Em; simpl in Hf; [|discriminate].
    injection Hf as <-. simpl. by apply Hk.
Qed.

Lemma fix_links_list_pres (R : node -> bool) base ns ns' :
  (forall n n', fix_links_node urljoin base n = Some n' -> R n = true -> R n' = true) ->
  mapM (fix_links_node urljoin base) ns = Some ns' ->
  forallb R ns = true -> forallb R ns' = true.
Proof.
  intros HR Em. eapply forallb_Forall2; [apply mapM_Some_1, Em|].
  apply Forall_forall. intros x _ y Hy. by apply HR.
Qed.

(** ** What one [<img>] turns into *)

Lemma process_img_out base parent a st o st' :
  process_img base parent a st = (Some o, st') ->
  o = [] \/
  (o = [Elem "img" a []] /\ Py.startswith "data:" (img_src a) = true) \/
  (exists p, (exists k, cache st' !! k = Some p) /\
     (o = [Elem "img" (sanitise_attrs (attr_set "src" p a)) []] \/
      o = wrap_figure parent (sanitise_attrs (attr_set "src" p a)))).
Proof.
  unfold process_img, bind, lift, ret. cbv zeta. intros H.
  destruct (String.eqb (img_src a) ""); [simplify_eq; by left|].
  destruct (tracking_pixel _ _); [simplify_eq; by left|].
  destruct (Py.startswith "data:" (img_src a)) eqn:Hd; [simplify_eq; by right; left|].
  destruct (urljoin base (img_src a)) as [abs|]; [|discriminate].
  destruct (cache st !! abs) as [p|] eqn:Hc.
  - simplify_eq. right. right. exists p. split; [by exists abs|by left].
  - destruct (fetch_binary _ abs) as [[data mime]|]; simplify_eq; [|by left].
    right. right. eexists. split; [exists abs; simpl; apply lookup_insert_eq|by right].
Qed.

Lemma process_img_comment_free base parent a st o st' :
  process_img base parent a st = (Some o, st') -> forallb comment_free o = true.
Proof.
  intros H. apply process_img_out in H as [->|[[-> _]|(p & _ & [->| ->])]]; try done.
  unfold wrap_figure. destruct (mem parent _); [done|].
  destruct (String.eqb _ ""); done.
Qed.

Lemma wrap_figure_all (R : string -> attrs -> bool) parent a :
  R "img" a = true -> R "figure" [] = true -> R "figcaption" [] = true ->
  forallb (all_elems R) (wrap_figure parent a) = true.
Proof.
  intros H1 H2 H3. unfold wrap_figure. destruct (mem parent _); simpl; rewrite ?H1; [done|].
  rewrite H2. destruct (String.eqb _ ""); simpl; rewrite ?H1, ?H3; done.
Qed.

Lemma all_elems_mono (P : gmap string string -> string -> attrs -> bool) c c' :
  (forall t a, P c t a = true -> P c' t a = true) ->
  forall n, all_elems (P c) n = true -> all_elems (P c') n = true.
Proof.
  intros HP n. induction n as [t a ch IH| |] using node_ind'; simpl; [|done|done].
  intros [Ha Hch]%andb_prop. rewrite (HP _ _ Ha). simpl.
  eapply forallb_impl_in; [|exact Hch]. kids IH.
Qed.

(** [process_images] gives a tree whose elements satisfy [P], with the
    cache it ends with, when the elements of its input satisfy [Q], every
    element other than an [<img>] that satisfies [Q] satisfies [P] and every
    [<img>] turns into nodes that satisfy [P]. *)
Section ProcessPres.
Variable P : gmap string string -> string -> attrs -> bool.
Variable Q : string -> attrs -> bool.
Hypothesis Hmono : forall c c' t a,
  (forall k v, c !! k = Some v -> c' !! k = Some v) -> P c t a = true -> P c' t a = true.
Hypothesis Hnon : forall c t a, t <> "img" -> Q t a = true -> P c t a = true.
Hypothesis Himg : forall base parent a st o st',
  Q "img" a = true -> process_img base parent a st = (Some o, st') ->
  forallb (all_elems (P (cache st'))) o = true.

Lemma lift_all (c c' : gmap string string) (l : list node) :
  (forall k v, c !! k = Some v -> c' !! k = Some v) ->
  forallb (all_elems (P c)) l = true -> forallb (all_elems (P c')) l = true.
Proof.
  intros Hc. apply forallb_impl_in. intros x _. apply all_elems_mono.
  intros. by eapply Hmono.
Qed.

Lemma process_node_pres base n : forall parent st o st',
  all_elems Q n = true -> process_node base parent n st = (Some o, st') ->
  forallb (all_elems (P (cache st'))) o = true.
Proof.
  induction n as [t a ch IH| |] using node_ind'; intros parent st o st' Hn Hp;
    simpl in Hp; try (injection Hp as <- <-; done).
  apply andb_prop in Hn as [Ha Hch].
  destruct (String.eqb_spec t "img") as [->|Hne]; [by eapply Himg|].
  unfold bind, ret in Hp.
  destruct (traverse (process_node base t) ch st) as [[ys|] st1] eqn:Et; [|discriminate].
  injection Hp as <- <-. simpl. rewrite (Hnon _ _ _ Hne Ha). simpl. rewrite andb_true_r.
  clear Ha. revert st ys Et.
  induction ch as [|x l IHl]; intros st ys Et; simpl in Et.
  - injection Et as <- <-. done.
  - inversion IH as [|? ? Hx Hl]; subst. apply andb_prop in Hch as [Hchx Hchl].
    unfold bind, ret in Et.
    destruct (process_node base t x st) as [[y|] s1] eqn:Ex; [|discriminate].
    destruct (traverse (process_node base t) l s1) as [[ys'|] s2] eqn:El; [|discriminate].
    injection Et as <- <-. simpl. rewrite forallb_app. apply andb_true_intro. split.
    + pose proof (traverse_advances (process_node base t) l
                    (fun z st0 _ => process_node_advances base z t st0) s1) as (Hc & _).
      rewrite El in Hc. simpl in Hc.
      eapply lift_all; [exact Hc|]. by eapply Hx.
    + by eapply (IHl Hl Hchl s1).
Qed.

Lemma process_images_pres base ns st o st' :
  forallb (all_elems Q) ns = true -> process_images base ns st = (Some o, st') ->
  forallb (all_elems (P (cache st'))) o = true.
Proof.
  intros Hns Hp. unfold process_images, bind, ret in Hp.
  destruct (traverse (process_node base "[document]") ns st) as [[ys|] st1] eqn:Et;
    [|discriminate].
  injection Hp as <- <-. revert st ys Et.
  induction ns as [|x l IHl]; intros st ys Et; simpl in Et.
  - injection Et as <- <-. done.
  - simpl in Hns. apply andb_prop in Hns as [Hx Hl].
    unfold bind, ret in Et.
    destruct (process_node base "[document]" x st) as [[y|] s1] eqn:Ex; [|discriminate].
    destruct (traverse _ l s1) as [[ys'|] s2] eqn:El; [|discriminate].
    injection Et as <- <-. simpl. rewrite forallb_app. apply andb_true_intro. split.
    + pose proof (traverse_advances (process_node base "[document]") l
                    (fun z st0 _ => process_node_advances base z "[document]" st0) s1) as (Hc & _).
      rewrite El in Hc. simpl in Hc.
      eapply lift_all; [exact Hc|]. by eapply process_node_pres.
    + by eapply (IHl Hl s1).
Qed.
End ProcessPres.

Lemma process_images_comment_free base ns st o st' :
  forallb comment_free ns = true -> process_images base ns st = (Some o, st') ->
  forallb comment_free o = true.
Proof.
  assert (Hn : forall n parent st o st', comment_free n = true ->
            process_node base parent n st = (Some o, st') -> forallb comment_free o = true).
  { intros n. induction n as [t a ch IH| |] using node_ind'; intros parent st0 o0 st0' Hn Hp;
      simpl in Hp; try (injection Hp as <- <-; done).
    destruct (String.eqb t "img"); [by eapply process_img_comment_free|].
    unfold bind, ret in Hp.
    destruct (traverse (process_node base t) ch st0) as [[ys|] st1] eqn:Et; [|discriminate].
    injection Hp as <- <-. simpl. rewrite andb_true_r.
    revert st0 ys Et. induction ch as [|x l IHl]; intros st0 ys Et; simpl in Et.
    - injection Et as <- <-. done.
    - inversion IH as [|? ? Hx Hl]; subst. simpl in Hn. apply andb_prop in Hn as [Hnx Hnl].
      unfold bind, ret in Et.
      destruct (process_node base t x st0) as [[y|] s1] eqn:Ex; [|discriminate].
      destruct (traverse _ l s1) as [[ys'|] s2] eqn:El; [|discriminate].
      injection Et as <- <-. simpl. rewrite forallb_app. apply andb_true_intro.
      split; [by eapply Hx|by eapply (IHl Hl Hnl s1)]. }
  intros Hns Hp. unfold process_images, bind, ret in Hp.
  destruct (traverse (process_node base "[document]") ns st) as [[ys|] st1] eqn:Et;
    [|discriminate].
  injection Hp as <- <-. revert st ys Et.
  induction ns as [|x l IHl]; intros st ys Et; simpl in Et.
  - injection Et as <- <-. done.
  - simpl in Hns. apply andb_prop in Hns as [Hx Hl].
    unfold bind, ret in Et.
    destruct (process_node base "[document]" x st) as [[y|] s1] eqn:Ex; [|discriminate].
    destruct (traverse _ l s1) as [[ys'|] s2] eqn:El; [|discriminate].
    injection Et as <- <-. simpl. rewrite forallb_app. apply andb_true_intro.
    split; [by eapply Hn|by eapply (IHl Hl s1)].
Qed.

(** The stages of a [clean_tree] run that returns. *)
Lemma clean_tree_ok base parsed st out st' :
  clean_tree base parsed st = (Some out, st') ->
  exists t4 t5,
    process_images base (map srcset_node (flat_map drop_unwanted_node
        (flat_map remove_comments_node parsed))) st = (Some t4, st') /\
    mapM (fix_links_node urljoin base) t4 = Some t5 /\
    out = (let t7 := flat_map remove_empty_node (map strip_attrs_node t5) in
           match first_some find_body t7 with Some ch => ch | None => t7 end).
Proof.
  unfold clean_tree, bind, lift, ret. cbv zeta. intros H.
  destruct (process_images _ _ st) as [[t4|] s4] eqn:E; [|discriminate].
  destruct (mapM _ t4) as [t5|] eqn:E2; [|discriminate].
  injection H as <- <-. eauto.
Qed.

Lemma attr_get_sanitise k a :
  attr_get k (sanitise_attrs a) = if mem k keep_attrs then attr_get k a else None.
Proof.
  unfold sanitise_attrs. induction a as [|[k' v] a IH]; cbn [List.filter attr_get fst].
  - by destruct (mem k keep_attrs).
  - destruct (mem k' keep_attrs) eqn:Hm'; cbn [attr_get];
      (destruct (String.eqb_spec k k') as [<-|Hne]; [rewrite Hm' in *|]); done.
Qed.

Lemma cached_paths_spec c p : p ∈ cached_paths c <-> exists k, c !! k = Some p.
Proof.
  unfold cached_paths. rewrite list_elem_of_fmap. split.
  - intros ([k v] & -> & Hin). apply elem_of_map_to_list in Hin. eauto.
  - intros (k & Hk). exists (k, p). split; [done|]. by apply elem_of_map_to_list.
Qed.

Lemma forallb_all_flat_map (P : string -> attrs -> bool) (f : node -> list node) l :
  (forall n, all_elems P n = true -> forallb (all_elems P) (f n) = true) ->
  forallb (all_elems P) l = true -> forallb (all_elems P) (flat_map f l) = true.
Proof.
  intros Hf Hl. rewrite forallb_flat_map. eapply forallb_impl_in; [|exact Hl].
  intros x _. apply Hf.
Qed.

Lemma late_passes_pres (P : string -> attrs -> bool) base t4 t5 :
  (forall a h, P "a" a = true -> P "a" (attr_set "href" h a) = true) ->
  (forall t a, t <> "img" -> P t a = true -> P t (strip_unwanted_attrs a) = true) ->
  mapM (fix_links_node urljoin base) t4 = Some t5 ->
  forallb (all_elems P) t4 = true ->
  forallb (all_elems P)
    (let t7 := flat_map remove_empty_node (map strip_attrs_node t5) in
     match first_some find_body t7 with Some ch => ch | None => t7 end) = true.
Proof.
  intros Ha Hs Hm H4. cbv zeta. apply body_or_all_pres; [apply all_elems_her|].
  apply forallb_all_flat_map; [apply remove_empty_pres|].
  rewrite forallb_map_eq. eapply forallb_impl_in; [|eapply fix_links_list_pres;
    [intros n n'; apply fix_links_pres, Ha|exact Hm|exact H4]].
  intros x _. by apply strip_attrs_pres.
Qed.

Lemma process_images_tag_pres (U : string -> attrs -> bool) base ns st o st' :
  (forall a a', U "img" a = U "img" a') -> U "img" [] = true ->
  U "figure" [] = true -> U "figcaption" [] = true ->
  forallb (all_elems U) ns = true -> process_images base ns st = (Some o, st') ->
  forallb (all_elems U) o = true.
Proof.
  intros Hi Hi0 Hf Hc Hns Hp.
  refine (process_images_pres (fun _ => U) U _ _ _ base ns st o st' Hns Hp); [done|done|].
  intros b parent a s o' s' Ha Hp'.
  apply process_img_out in Hp' as [->|[[-> _]|(p & _ & [->| ->])]].
  - done.
  - simpl. by rewrite Ha.
  - simpl. by rewrite (Hi _ []), Hi0.
  - apply wrap_figure_all; [by rewrite (Hi _ [])|done|done].
Qed.

(** X1: the tree [clean_html] serialises, when it returns, holds no element
    whose tag is one of [_UNWANTED_TAGS]. *)
Theorem clean_no_unwanted_tags base parsed st out st' :
  clean_tree base parsed st = (Some out, st') ->
  forallb (all_elems (fun t _ => negb (mem t UNWANTED_TAGS))) out = true.
Proof.
  intros H. apply clean_tree_ok in H as (t4 & t5 & Hp & Hm & ->).
  apply (late_passes_pres _ base t4); [done|done|exact Hm|].
  eapply process_images_tag_pres; [done|done|done|done| |exact Hp].
  rewrite forallb_map_eq, forallb_flat_map. apply forallb_forall. intros y _.
  eapply forallb_impl_in; [|exact (drop_unwanted_clean y)].
  intros z _ Hz. by apply srcset_pres.
Qed.

(** X2: no [<img>] of the tree [clean_html] serialises, when it returns,
    carries a [srcset] attribute. *)
Theorem clean_img_no_srcset base parsed st out st' :
  clean_tree base parsed st = (Some out, st') ->
  forallb (all_elems (fun t a => negb (String.eqb t "img") || negb (has_attr "srcset" a)))
    out = true.
Proof.
  intros H. apply clean_tree_ok in H as (t4 & t5 & Hp & Hm & ->).
  apply (late_passes_pres _ base t4); [done| |exact Hm|].
  { intros t a Hne _. by rewrite (proj2 (String.eqb_neq t "img") Hne). }
  set (S := fun t a => negb (String.eqb t "img") || negb (has_attr "srcset" a)).
  refine (process_images_pres (fun _ => S) S _ _ _ base _ st t4 st' _ Hp).
  - done.
  - intros _ t a Hne _. unfold S. by rewrite (proj2 (String.eqb_neq t "img") Hne).
  - intros b parent a s o s' Ha Hp'.
    assert (Hs : forall p, S "img" (sanitise_attrs (attr_set "src" p a)) = true).
    { intros p. unfold S, has_attr. by rewrite attr_get_sanitise. }
    apply process_img_out in Hp' as [->|[[-> _]|(p & _ & [->| ->])]].
    + done.
    + simpl. by rewrite Ha.
    + simpl. by rewrite Hs.
    + by apply wrap_figure_all.
  - rewrite forallb_map_eq. apply forallb_forall. intros x _. apply srcset_node_removes.
Qed.

Lemma embedded_or_data_mono (c c' : gmap string string) t a :
  (forall k v, c !! k = Some v -> c' !! k = Some v) ->
  embedded_or_data c t a = true -> embedded_or_data c' t a = true.
Proof.
  intros Hc. unfold embedded_or_data.
  destruct (negb _ || _); [done|]. simpl.
  destruct (attr_get "src" a) as [p|]; [|done]. simpl.
  intros [Hp Hk]%andb_prop. rewrite Hk, andb_true_r.
  apply bool_decide_eq_true in Hp. apply bool_decide_eq_true_2.
  apply cached_paths_spec in Hp as (k & Hk'). apply cached_paths_spec. eauto.
Qed.

(** X3: in the tree [clean_html] serialises, when it returns, every
    [<img>] either has a data-URI source, or has as [src] one of the
    internal paths of the image cache the run ends with and only
    allow-listed attributes. *)
Theorem clean_img_embedded_or_data base parsed st out st' :
  clean_tree base parsed st = (Some out, st') ->
  forallb (all_elems (embedded_or_data (cache st'))) out = true.
Proof.
  intros H. apply clean_tree_ok in H as (t4 & t5 & Hp & Hm & ->).
  apply (late_passes_pres _ base t4); [done| |exact Hm|].
  { intros t a Hne _. unfold embedded_or_data.
    by rewrite (proj2 (String.eqb_neq t "img") Hne). }
  refine (process_images_pres embedded_or_data (fun _ _ => true) _ _ _ base _ st t4 st' _ Hp).
  - intros c c' t a Hc. by apply embedded_or_data_mono.
  - intros c t a Hne _. unfold embedded_or_data.
    by rewrite (proj2 (String.eqb_neq t "img") Hne).
  - intros b parent a s o s' _ Hp'.
    assert (Hs : forall p, (exists k, cache s' !! k = Some p) ->
              embedded_or_data (cache s') "img" (sanitise_attrs (attr_set "src" p a)) = true).
    { intros p Hk. unfold embedded_or_data. rewrite String.eqb_refl.
      rewrite attr_get_sanitise, attr_get_set_same.
      replace (mem "src" keep_attrs) with true by reflexivity.
      rewrite (bool_decide_eq_true_2 _ (proj2 (cached_paths_spec _ _) Hk)).
      unfold sanitise_attrs. rewrite forallb_filter_mem.
      destruct (Py.startswith _ _); reflexivity. }
    apply process_img_out in Hp' as [->|[[-> Hd]|(p & Hk & [->| ->])]].
    + done.
    + simpl. unfold embedded_or_data. by rewrite Hd, orb_true_r.
    + simpl. by rewrite Hs.
    + by apply wrap_figure_all; [apply Hs| |].
  - apply forallb_forall. intros x _. clear. induction x as [t a ch IH| |] using node_ind';
      simpl; [|done|done].
    apply forallb_forall. intros y Hy. apply list_elem_of_In in Hy.
    rewrite Forall_forall in IH. by apply IH.
Qed.

(** X4: the tree [clean_html] serialises, when it returns, holds no HTML
    comment. *)
Theorem clean_no_comments base parsed st out st' :
  clean_tree base parsed st = (Some out, st') -> forallb comment_free out = true.
Proof.
  intros H. apply clean_tree_ok in H as (t4 & t5 & Hp & Hm & ->). cbv zeta.
  apply body_or_all_pres; [apply comment_her|].
  rewrite forallb_flat_map. apply forallb_forall. intros x Hx.
  apply remove_empty_comment_free.
  apply list_elem_of_In in Hx. apply list_elem_of_fmap in Hx as (y & -> & Hy).
  apply strip_attrs_comment_free.
  assert (H5 : forallb comment_free t5 = true).
  { eapply fix_links_list_pres; [apply fix_links_comment_free|exact Hm|].
    eapply process_images_comment_free; [|exact Hp].
    rewrite forallb_map_eq, forallb_flat_map. apply forallb_forall. intros w Hw.
    assert (Hc : forallb comment_free (flat_map remove_comments_node parsed) = true).
    { rewrite forallb_flat_map. apply forallb_forall. intros. apply remove_comments_clean. }
    rewrite forallb_forall in Hc. specialize (Hc w Hw).
    eapply forallb_impl_in; [|exact (drop_unwanted_comment_free w Hc)].
    intros z _ Hz. by apply srcset_comment_free. }
  rewrite forallb_forall in H5. apply H5. by apply list_elem_of_In.
Qed.


(** ** The image cache and the book *)

Lemma traverse_rel {A B} (R : istate -> istate -> Prop)
    (Rrefl : forall s, R s s) (Rtrans : forall s1 s2 s3, R s1 s2 -> R s2 s3 -> R s1 s3)
    (f : A -> M B) (l : list A) :
  (forall x st, x ∈ l -> R st (snd (f x st))) ->
  forall st, R st (snd (traverse f l st)).
Proof.
  induction l as [|x l IH]; intros Hf st; simpl; [apply Rrefl|].
  pose proof (Hf x st (list_elem_of_here x l)) as H1.
  unfold bind. destruct (f x st) as [[y|] st1]; simpl in H1; [|exact H1].
  assert (H2 : R st1 (snd (traverse f l st1))).
  { apply IH. intros z st' Hz. apply Hf. by apply list_elem_of_further. }
  destruct (traverse f l st1) as [[ys|] st2]; simpl in *; eauto.
Qed.

Section StateRel.
Variable R : istate -> istate -> Prop.
Hypothesis Rrefl : forall s, R s s.
Hypothesis Rtrans : forall s1 s2 s3, R s1 s2 -> R s2 s3 -> R s1 s3.
Hypothesis Rimg : forall base parent a st, R st (snd (process_img base parent a st)).

Lemma process_node_rel base n : forall parent st, R st (snd (process_node base parent n st)).
Proof.
  induction n as [t a ch IH| |] using node_ind'; intros parent st; simpl; try apply Rrefl.
  destruct (String.eqb t "img"); [apply Rimg|].
  assert (H : R st (snd (traverse (process_node base t) ch st))).
  { apply traverse_rel; [done|done|]. intros x st' Hx.
    rewrite Forall_forall in IH. by apply IH. }
  unfold bind. destruct (traverse (process_node base t) ch st) as [[ys|] st2];
    simpl in *; done.
Qed.

Lemma clean_html_rel raw base st : R st (snd (clean_html raw base st)).
Proof.
  unfold clean_html, clean_tree, bind, lift, ret.
  assert (H : forall ns, R st (snd (process_images base ns st))).
  { intros ns. unfold process_images.
    assert (H : R st (snd (traverse (process_node base "[document]") ns st))).
    { apply traverse_rel; [done|done|]. intros. apply process_node_rel. }
    unfold bind. destruct (traverse _ ns st) as [[ys|] st2]; simpl in *; done. }
  specialize (H (map srcset_node (flat_map drop_unwanted_node
                   (flat_map remove_comments_node (parse raw))))).
  destruct (process_images _ _ st) as [[ys|] st2]; simpl in *; [|done].
  destruct (mapM _ ys); simpl; done.
Qed.
End StateRel.

(** One book item is added per new cache entry. *)
Definition counts (st st' : istate) : Prop :=
  (length (book st') + size (cache st) = length (book st) + size (cache st'))%nat.

Lemma process_img_counts base parent a st : counts st (snd (process_img base parent a st)).
Proof.
  unfold counts, process_img, bind, lift, ret. cbv zeta.
  destruct (String.eqb (img_src a) ""); [simpl; lia|].
  destruct (tracking_pixel _ _); [simpl; lia|].
  destruct (Py.startswith "data:" (img_src a)); [simpl; lia|].
  destruct (urljoin base (img_src a)) as [abs|]; [|simpl; lia].
  destruct (cache st !! abs) as [p|] eqn:Hc; [simpl; lia|].
  destruct (fetch_binary _ abs) as [[data mime]|]; simpl; [|lia].
  rewrite length_app, map_size_insert_None by done. simpl. lia.
Qed.

(** X6: [clean_html] adds exactly one item to the book for each URL it
    adds to the image cache, whether it returns or raises. *)
Theorem clean_html_one_item_per_cache_entry raw base st :
  let st' := snd (clean_html raw base st) in
  (length (book st') + size (cache st) = length (book st) + size (cache st'))%nat.
Proof.
  apply (clean_html_rel counts).
  - intros s. unfold counts. lia.
  - unfold counts. intros s1 s2 s3 H12 H23. lia.
  - apply process_img_counts.
Qed.

(** Every path in the cache names an image item of the book. *)
Definition cache_in_book (st : istate) : Prop :=
  forall k p, cache st !! k = Some p ->
  exists i, Item i ∈ book st /\ file_name i = p /\ String.prefix "images/" p = true.

Lemma process_img_cache_in_book base parent a st :
  cache_in_book st -> cache_in_book (snd (process_img base parent a st)).
Proof.
  unfold process_img, bind, lift, ret. cbv zeta. intros Hinv.
  destruct (String.eqb (img_src a) ""); [done|].
  destruct (tracking_pixel _ _); [done|].
  destruct (Py.startswith "data:" (img_src a)); [done|].
  destruct (urljoin base (img_src a)) as [abs|]; [|done].
  destruct (cache st !! abs) as [p|] eqn:Hc; [done|].
  destruct (fetch_binary _ abs) as [[data mime]|]; [|done].
  intros k p Hk. simpl in Hk |- *.
  destruct (String.eq_dec k abs) as [->|Hne].
  - rewrite lookup_insert_eq in Hk. injection Hk as <-.
    eexists. split; [apply elem_of_app; right; apply list_elem_of_singleton; reflexivity|].
    split; [reflexivity|apply prefix_images].
  - rewrite lookup_insert_ne in Hk by congruence.
    destruct (Hinv k p Hk) as (i & Hi & Hf & Hpre).
    exists i. split; [apply elem_of_app; by left|done].
Qed.

Lemma build_step_cache_in_book st chs idx url :
  cache_in_book st -> cache_in_book (fst (build_step st chs idx url)).
Proof.
  intros Hinv. unfold_build_step.
  destruct (fetch_page idx url) as [[html final]|]; [|done].
  destruct (extract_article html final) as [[t raw]|]; [|done].
  pose proof (clean_html_rel (fun s s' => cache_in_book s -> cache_in_book s')
                (fun _ H => H) (fun _ _ _ H1 H2 H => H2 (H1 H))
                process_img_cache_in_book raw final st Hinv) as H.
  destruct (clean_html raw final st) as [r st1]. simpl in *.
  intros k p Hk. destruct (H k p Hk) as (i & Hi & Hf & Hpre).
  exists i. split; [apply elem_of_app; by left|done].
Qed.

(** X7: after the loop of [build_epub], every path held by the image
    cache (the [src] given to a cached or embedded image) is the file name
    of an image item of the book, under [images/]. *)
Theorem build_loop_cache_in_book urls k p :
  let st := fst (build_loop (mk_ist ∅ [Item CSS_ITEM] []) [] 1 urls) in
  cache st !! k = Some p ->
  exists i, Item i ∈ book st /\ file_name i = p /\ String.prefix "images/" p = true.
Proof.
  cbv zeta. revert k p.
  change (cache_in_book (fst (build_loop (mk_ist ∅ [Item CSS_ITEM] []) [] 1 urls))).
  assert (H0 : cache_in_book (mk_ist ∅ [Item CSS_ITEM] [])).
  { intros k p Hk. simpl in Hk. by rewrite lookup_empty in Hk. }
  generalize (mk_ist ∅ [Item CSS_ITEM] []) (@nil epub_html) 1%nat H0.
  induction urls as [|u urls IH]; intros st chs idx Hinv; simpl; [done|].
  pose proof (build_step_cache_in_book st chs idx u Hinv) as H.
  destruct (build_step st chs idx u) as [st1 chs1]. by apply IH.
Qed.


(** A URL handed again to [fetch_binary] was not downloaded before, and a
    downloaded URL is in the cache. *)
Definition no_refetch (st : istate) : Prop :=
  (forall i j u, (i < j)%nat -> fetched st !! i = Some u -> fetched st !! j = Some u ->
     fetch_binary i u = None) /\
  (forall i u, fetched st !! i = Some u -> fetch_binary i u <> None ->
     is_Some (cache st !! u)).

Lemma process_img_no_refetch base parent a st :
  no_refetch st -> no_refetch (snd (process_img base parent a st)).
Proof.
  unfold process_img, bind, lift, ret. cbv zeta. intros [HA HB].
  destruct (String.eqb (img_src a) ""); [done|].
  destruct (tracking_pixel _ _); [done|].
  destruct (Py.startswith "data:" (img_src a)); [done|].
  destruct (urljoin base (img_src a)) as [abs|]; [|done].
  destruct (cache st !! abs) as [p|] eqn:Hc; [done|].
  assert (Hold : forall i u, (i < length (fetched st))%nat -> fetched st !! i = Some u ->
                   fetch_binary i u <> None -> u <> abs).
  { intros i u _ Hi Hf ->. destruct (HB i abs Hi Hf) as [q Hq]. congruence. }
  assert (HA' : forall i j u, (i < j)%nat -> (fetched st ++ [abs]) !! i = Some u ->
      (fetched st ++ [abs]) !! j = Some u -> fetch_binary i u = None).
  { intros i j u Hij Hi Hj.
    apply lookup_snoc_Some in Hi as [[Hil Hi]|[-> Hu]];
      apply lookup_snoc_Some in Hj as [[Hjl Hj]|[-> Hu']]; try lia.
    - by apply (HA i j u).
    - subst u. destruct (fetch_binary i abs) eqn:E; [|done].
      exfalso. apply (Hold i abs Hil Hi); [by rewrite E|done]. }
  destruct (fetch_binary (length (fetched st)) abs) as [[data mime]|] eqn:Hfb;
    cbn [snd cache fetched].
  - split; [by apply HA'|].
    intros i u Hi Hf. cbn [cache fetched] in *.
    apply lookup_snoc_Some in Hi as [[Hil Hi]|[-> <-]].
    + destruct (HB i u Hi Hf) as [q Hq].
      destruct (String.eq_dec u abs) as [->|Hne]; [by rewrite lookup_insert_eq|].
      rewrite lookup_insert_ne by congruence. by exists q.
    + by rewrite lookup_insert_eq.
  - split; [by apply HA'|].
    intros i u Hi Hf. cbn [cache fetched] in *.
    apply lookup_snoc_Some in Hi as [[Hil Hi]|[-> <-]].
    + by apply (HB i u Hi Hf).
    + by rewrite Hfb in Hf.
Qed.

Lemma build_step_no_refetch st chs idx url :
  no_refetch st -> no_refetch (fst (build_step st chs idx url)).
Proof.
  intros Hinv. unfold_build_step.
  destruct (fetch_page idx url) as [[html final]|]; [|done].
  destruct (extract_article html final) as [[t raw]|]; [|done].
  pose proof (clean_html_rel (fun s s' => no_refetch s -> no_refetch s')
                (fun _ H => H) (fun _ _ _ H1 H2 H => H2 (H1 H))
                process_img_no_refetch raw final st Hinv) as H.
  destruct (clean_html raw final st) as [r st1]. exact (H).
Qed.

(** X8: within one build, an image URL goes to [fetch_binary] again only
    after a failed download: when the same absolute URL is downloaded twice,
    the earlier download failed, so no image is downloaded successfully more
    than once (later [<img>] tags with that URL reuse the cache). *)
Theorem build_loop_no_refetch urls i j u :
  let st := fst (build_loop (mk_ist ∅ [Item CSS_ITEM] []) [] 1 urls) in
  (i < j)%nat -> fetched st !! i = Some u -> fetched st !! j = Some u ->
  fetch_binary i u = None.
Proof.
  cbv zeta. intros Hij Hi Hj.
  enough (H : no_refetch (fst (build_loop (mk_ist ∅ [Item CSS_ITEM] []) [] 1 urls)))
    by exact (proj1 H i j u Hij Hi Hj).
  assert (H0 : no_refetch (mk_ist ∅ [Item CSS_ITEM] [])).
  { split; intros i'; [intros j' u' _ Hi'|intros u' Hi']; simpl in Hi'; by rewrite lookup_nil in Hi'. }
  clear Hi Hj. generalize (mk_ist ∅ [Item CSS_ITEM] []) (@nil epub_html) 1%nat H0.
  induction urls as [|v urls IH]; intros st chs idx Hinv; simpl; [done|].
  pose proof (build_step_no_refetch st chs idx v Hinv) as H.
  destruct (build_step st chs idx v) as [st1 chs1]. by apply IH.
Qed.

(* ------------------------------------------------------------------ *)
(** ** Chapter bodies and file names *)

Lemma list_ascii_of_string_append (s1 s2 : string) :
  String.list_ascii_of_string (s1 +:+ s2) =
    String.list_ascii_of_string s1 ++ String.list_ascii_of_string s2.
Proof. induction s1 as [|x s1 IH]; simpl; [done|]. by rewrite IH. Qed.

Lemma concat_empty_list_ascii (l : list string) :
  String.list_ascii_of_string (String.concat "" l) =
    flat_map String.list_ascii_of_string l.
Proof.
  induction l as [|x l IH]; [done|].
  destruct l as [|y l].
  - cbn. by rewrite app_nil_r.
  - change (String.concat "" (x :: y :: l)) with (x +:+ "" +:+ String.concat "" (y :: l)).
    rewrite !list_ascii_of_string_append, IH. reflexivity.
Qed.

Lemma replace_char_list c r s :
  String.list_ascii_of_string (replace_char c r s) =
    flat_map (fun x => if Ascii.eqb x c then String.list_ascii_of_string r else [x])
      (String.list_ascii_of_string s).
Proof.
  unfold replace_char. rewrite concat_empty_list_ascii.
  induction (String.list_ascii_of_string s) as [|x l IH]; simpl; [done|].
  rewrite IH. by destruct (Ascii.eqb x c).
Qed.

Lemma lacks_replace_char d c r s :
  lacks d r = true -> (d = c \/ lacks d s = true) -> lacks d (replace_char c r s) = true.
Proof.
  unfold lacks. rewrite replace_char_list, existsb_flat_map.
  intros Hr Hs. apply negb_true_iff in Hr. apply negb_true_iff.
  match goal with |- ?e = false => destruct e eqn:E; [|done] end.
  apply existsb_exists in E as (x & Hx & Hfx).
  destruct (Ascii.eqb_spec x c) as [->|Hne]; [by rewrite Hr in Hfx|].
  simpl in Hfx. rewrite orb_false_r in Hfx. apply Ascii.eqb_eq in Hfx. subst d.
  destruct Hs as [Hs|Hs]; [done|].
  apply negb_true_iff in Hs. rewrite <- Hs. symmetry.
  apply existsb_exists. exists x. split; [done|apply Ascii.eqb_refl].
Qed.

Lemma unescape_other x r :
  x <> "&"%char -> unescape_amp_quot (x :: r) = x :: unescape_amp_quot r.
Proof.
  intros Hx. destruct x as [[] [] [] [] [] [] [] []]; try reflexivity; by contradict Hx.
Qed.

Definition escape_url_char (x : ascii) : list ascii :=
  if Ascii.eqb x "&" then String.list_ascii_of_string "&amp;"
  else if Ascii.eqb x (ascii_of_nat 34) then String.list_ascii_of_string "&quot;"
  else [x].

Lemma escape_url_list (u : string) :
  String.list_ascii_of_string
    (replace_char (ascii_of_nat 34) "&quot;" (replace_char "&" "&amp;" u)) =
  flat_map escape_url_char (String.list_ascii_of_string u).
Proof.
  rewrite !replace_char_list.
  induction (String.list_ascii_of_string u) as [|x l IH]; [done|].
  cbn [flat_map]. rewrite flat_map_app, IH. f_equal.
  unfold escape_url_char.
  destruct (Ascii.eqb_spec x "&") as [->|Hx]; [reflexivity|].
  cbn [flat_map]. rewrite app_nil_r. reflexivity.
Qed.

Lemma unescape_escape_url (l : list ascii) :
  unescape_amp_quot (flat_map escape_url_char l) = l.
Proof.
  induction l as [|x l IH]; [done|].
  cbn [flat_map]. unfold escape_url_char at 1.
  destruct (Ascii.eqb_spec x "&") as [->|Hx]; [cbn [app String.list_ascii_of_string unescape_amp_quot]; by rewrite IH|].
  destruct (Ascii.eqb_spec x (ascii_of_nat 34)) as [->|Hq]; [cbn [app String.list_ascii_of_string unescape_amp_quot]; by rewrite IH|].
  cbn [app]. rewrite unescape_other by done. by rewrite IH.
Qed.

Lemma unescape_escaped_url (u : string) :
  String.string_of_list_ascii
    (unescape_amp_quot (String.list_ascii_of_string
      (replace_char (ascii_of_nat 34) "&quot;" (replace_char "&" "&amp;" u)))) = u.
Proof.
  rewrite escape_url_list, unescape_escape_url.
  apply String.string_of_list_ascii_of_string.
Qed.

(** X9: in a chapter body the escaped title contains no [<], [>] or double
    quote, so it cannot open or close a tag or break out of the [h1]; the
    escaped URL contains no double quote, so it cannot end the [href]
    attribute, and decoding its [&amp;] and [&quot;] entities gives back the
    URL exactly; the content follows the fixed header unchanged. *)
Theorem make_chapter_body_escaping (title url content_html : string) :
  exists safe_title safe_url,
    make_chapter_body title url content_html =
      "<h1 class=" +:+ dq +:+ "chapter-title" +:+ dq +:+ ">" +:+ safe_title +:+ "</h1>" +:+ nl +:+
      "<p class=" +:+ dq +:+ "source-url" +:+ dq +:+ ">Source: <a href=" +:+ dq +:+ safe_url
        +:+ dq +:+ ">" +:+ safe_url +:+ "</a></p>" +:+ nl +:+
      "<hr class=" +:+ dq +:+ "chapter-rule" +:+ dq +:+ "/>" +:+ nl +:+
      content_html /\
    lacks "<" safe_title = true /\ lacks ">" safe_title = true /\
    lacks (ascii_of_nat 34) safe_title = true /\
    lacks (ascii_of_nat 34) safe_url = true /\
    String.string_of_list_ascii (unescape_amp_quot (String.list_ascii_of_string safe_url)) = url.
Proof.
  eexists _, _. split; [reflexivity|].
  split; [|split; [|split; [|split]]].
  - apply lacks_replace_char; [reflexivity|right].
    apply lacks_replace_char; [reflexivity|right].
    apply lacks_replace_char; [reflexivity|by left].
  - apply lacks_replace_char; [reflexivity|right].
    apply lacks_replace_char; [reflexivity|by left].
  - apply lacks_replace_char; [reflexivity|]. by left.
  - apply lacks_replace_char; [reflexivity|]. by left.
  - apply unescape_escaped_url.
Qed.

Lemma digits_value_app (l1 l2 : list ascii) a :
  digits_value (l1 ++ l2) a =
    match digits_value l1 a with Some v => digits_value l2 v | None => None end.
Proof.
  revert a. induction l1 as [|c l1 IH]; intros a; simpl; [done|].
  destruct (_ && _); [apply IH|done].
Qed.

Lemma digit_char_value (m : nat) a :
  (m < 10)%nat ->
  digits_value [ascii_of_nat (48 + m)] a = Some (10 * a + Z.of_nat m)%Z.
Proof.
  intros Hm. cbn [digits_value]. rewrite nat_ascii_embedding by lia.
  replace ((48 <=? 48 + m) && (48 + m <=? 57))%nat with true.
  - do 2 f_equal. lia.
  - symmetry. apply andb_true_iff. split; apply Nat.leb_le; lia.
Qed.

Lemma digits_aux_value fuel : forall n acc,
  (n < fuel)%nat ->
  exists ds, String.list_ascii_of_string (digits_aux fuel n acc) =
               ds ++ String.list_ascii_of_string acc /\
             forall a, digits_value ds a = Some (a * 10 ^ Z.of_nat (length ds) + Z.of_nat n)%Z.
Proof.
  induction fuel as [|f IH]; intros n acc Hn; [lia|].
  cbn [digits_aux]. destruct (Nat.ltb_spec n 10) as [Hlt|Hge].
  - exists [ascii_of_nat (48 + n mod 10)]. split; [reflexivity|].
    intros a. rewrite digit_char_value by (apply Nat.mod_upper_bound; lia).
    rewrite Nat.mod_small by done. simpl. f_equal. lia.
  - destruct (IH (n / 10)%nat (String.String (ascii_of_nat (48 + n mod 10)) acc))
      as (ds & Hds & Hv).
    { assert (n / 10 < n)%nat by (apply Nat.div_lt; lia). lia. }
    exists (ds ++ [ascii_of_nat (48 + n mod 10)]).
    rewrite Hds, <- app_assoc. split; [reflexivity|].
    intros a. rewrite digits_value_app, Hv, digit_char_value by (apply Nat.mod_upper_bound; lia).
    apply (f_equal Some). rewrite length_app. simpl length.
    pose proof (Nat.div_mod_eq n 10) as Hdm.
    rewrite Nat2Z.inj_add, Z.pow_add_r by lia.
    assert (Hz : Z.of_nat n = (10 * Z.of_nat (n / 10) + Z.of_nat (n mod 10))%Z) by lia.
    rewrite Hz. change (10 ^ Z.of_nat 1)%Z with 10%Z. generalize (10 ^ Z.of_nat (length ds))%Z. intros p. nia.
Qed.

Lemma zeros_value k a :
  digits_value (String.list_ascii_of_string (String.concat "" (repeat "0" k))) 0 = a ->
  a = Some 0%Z.
Proof.
  rewrite concat_empty_list_ascii. intros <-.
  induction k as [|k IH]; [done|]. exact IH.
Qed.

(** The decimal digits in [pad3 n] read back as [n]. *)
Lemma pad3_value n :
  digits_value (String.list_ascii_of_string (pad3 n)) 0 = Some (Z.of_nat n).
Proof.
  unfold pad3, nat_str. cbv zeta.
  destruct (digits_aux_value (S n) n "" ltac:(lia)) as (ds & Hds & Hv).
  rewrite list_ascii_of_string_append, digits_value_app.
  rewrite (zeros_value _ _ eq_refl), Hds, app_nil_r, Hv, Z.mul_0_l. reflexivity.
Qed.

Lemma pad3_inj i j : pad3 i = pad3 j -> i = j.
Proof.
  intros H. pose proof (pad3_value i) as Hi. rewrite H, pad3_value in Hi.
  injection Hi. lia.
Qed.

Lemma list_ascii_of_string_inj (x y : string) :
  String.list_ascii_of_string x = String.list_ascii_of_string y -> x = y.
Proof.
  intros H.
  rewrite <- (String.string_of_list_ascii_of_string x), <- (String.string_of_list_ascii_of_string y).
  by rewrite H.
Qed.

Lemma chapter_file_name_inj i j : chapter_file_name i = chapter_file_name j -> i = j.
Proof.
  unfold chapter_file_name. intros H.
  apply (f_equal String.list_ascii_of_string) in H.
  rewrite !list_ascii_of_string_append in H. repeat rewrite <- app_assoc in H.
  apply app_inv_head in H. apply app_inv_tail in H.
  by apply pad3_inj, list_ascii_of_string_inj.
Qed.

Lemma sorted_lt_NoDup (l : list nat) : StronglySorted lt l -> NoDup l.
Proof.
  induction 1 as [|x l _ IH Hx]; constructor; [|done].
  intros Hin. rewrite Forall_forall in Hx. apply Hx in Hin. lia.
Qed.

(** X10: no two chapters of a build share an internal file name: the
    names [chapter_<idx:03d>.xhtml] of the chapters are pairwise distinct,
    also past 999 chapters, where the index takes more than three digits. *)
Theorem build_epub_chapter_names_distinct (urls : list string) :
  NoDup (map h_file_name (r_chapters (build_epub urls))).
Proof.
  destruct (build_epub_chapters urls) as (l & Hr & Hf & _).
  rewrite Hr, Hf. apply NoDup_ListNoDup, Finite.Injective_map_NoDup.
  - intros i j. apply chapter_file_name_inj.
  - apply NoDup_ListNoDup, sorted_lt_NoDup, ok_positions_sorted.
Qed.

End Proofs.

(* ------------------------------------------------------------------ *)
(** ** [build_and_send] *)

(** C7 (amended): the state file is advanced, to the old set together with
    the new URLs, exactly when there were new URLs, [build_epub] made as
    many chapters as there were new URLs, and the delivery returned without
    raising; otherwise (no new URLs, a partial or empty build, or a failed
    delivery) it is left as it was. *)
Theorem C7_state_advance (urls : list string) (sent : gset string)
    (build : list string -> nat) (send_ok : bool) :
  snd (build_and_send urls sent build send_ok) =
    let new_urls := filter (fun u => u ∉ sent) urls in
    if bool_decide (new_urls <> [] /\ build new_urls = length new_urls /\ send_ok = true)
    then sent ∪ list_to_set new_urls else sent.
Proof.
  unfold build_and_send. cbv zeta.
  destruct urls as [|u urls]; [by rewrite bool_decide_eq_false_2 by naive_solver|].
  destruct (filter (fun u => u ∉ sent) (u :: urls)) as [|v news] eqn:E;
    [by rewrite bool_decide_eq_false_2 by naive_solver|].
  destruct (Nat.eqb_spec (build (v :: news)) 0) as [H0|H0].
  - rewrite bool_decide_eq_false_2; [done|]. intros (_ & Hb & _). simpl in Hb. lia.
  - destruct send_ok; simpl.
    + destruct (Nat.eqb_spec (build (v :: news)) (S (length news))) as [Hb|Hb].
      * rewrite bool_decide_eq_true_2; [done|]. naive_solver.
      * rewrite bool_decide_eq_false_2; [done|]. naive_solver.
    + rewrite bool_decide_eq_false_2; [done|]. naive_solver.
Qed.

Lemma new_urls_nil (urls : list string) (sent : gset string) :
  filter (fun u => u ∉ sent) urls = [] <-> Forall (fun u => u ∈ sent) urls.
Proof.
  induction urls as [|u urls IH]; simpl; [split; [constructor|done]|].
  rewrite Forall_cons. destruct (decide (u ∉ sent)) as [Hu|Hu].
  - rewrite filter_cons_True by done. split; [discriminate|]. by intros [? _].
  - rewrite filter_cons_False by done. rewrite IH.
    split; [|by intros [_ ?]]. intros H. split; [|done]. by apply dec_stable.
Qed.

Lemma build_and_send_all_sent urls sent build send_ok :
  Forall (fun u => u ∈ sent) urls ->
  build_and_send urls sent build send_ok = (Returned None, sent).
Proof.
  intros H. apply new_urls_nil in H. unfold build_and_send. cbv zeta.
  rewrite H. by destruct urls.
Qed.

(** X11: [build_and_send] returns [None] (building and sending nothing)
    exactly when every URL read is already in the state file, including
    when there are no URLs at all; in every other case it builds, and
    then returns a count or raises. *)
Theorem build_and_send_none_iff (urls : list string) (sent : gset string)
    (build : list string -> nat) (send_ok : bool) :
  fst (build_and_send urls sent build send_ok) = Returned None <->
  Forall (fun u => u ∈ sent) urls.
Proof.
  split; [|intros H; by rewrite build_and_send_all_sent].
  unfold build_and_send. cbv zeta.
  destruct urls as [|u urls]; [intros _; constructor|].
  destruct (filter (fun u => u ∉ sent) (u :: urls)) as [|v news] eqn:E.
  - intros _. by apply new_urls_nil.
  - destruct (build (v :: news) =? 0)%nat; [discriminate|].
    destruct send_ok; [|discriminate]. simpl.
    destruct (build (v :: news) =? S (length news))%nat; discriminate.
Qed.

(** X12: once a run has changed the state file, a second run over the
    same URL list, whatever [build_epub] and the delivery do, builds and
    sends nothing: it returns [None] and leaves the state file as the
    first run wrote it. *)
Theorem build_and_send_rerun (urls : list string) (sent : gset string)
    (build build' : list string -> nat) (send_ok send_ok' : bool) :
  let sent' := snd (build_and_send urls sent build send_ok) in
  sent' <> sent ->
  build_and_send urls sent' build' send_ok' = (Returned None, sent').
Proof.
  cbv zeta. intros Hch. apply build_and_send_all_sent.
  revert Hch. unfold build_and_send at 1 2. cbv zeta.
  destruct urls as [|u urls]; [intros H; by contradict H|].
  destruct (filter (fun u => u ∉ sent) (u :: urls)) as [|v news] eqn:E;
    [intros H; by contradict H|].
  destruct (build (v :: news) =? 0)%nat; [intros H; by contradict H|].
  destruct send_ok; [|intros H; by contradict H]. cbn [negb length].
  destruct (build (v :: news) =? S (length news))%nat; [|intros H; by contradict H].
  intros _. apply Forall_forall. intros w Hw.
  destruct (decide (w ∈ sent)) as [Hs|Hs]; [set_solver|].
  apply elem_of_union_r, elem_of_list_to_set. rewrite <- E.
  by apply list_elem_of_filter.
Qed.

(* ------------------------------------------------------------------ *)
(** ** Properties of the text files *)

Module TxtProofs.
Import Txt.
Local Open Scope N_scope.

(** Both [str.strip()] and [str.strip("_")] remove a run of characters
    from each end. *)
Definition strip_by (p : N -> bool) (s : text) : text :=
  rev (drop_while p (rev (drop_while p s))).

Definition hd_ok (p : N -> bool) (s : text) : Prop :=
  match s with [] => True | c :: _ => p c = false end.

Lemma drop_while_hd p l : hd_ok p (drop_while p l).
Proof.
  induction l as [|c l IH]; simpl; [done|].
  destruct (p c) eqn:E; [done|]. simpl. done.
Qed.

Lemma drop_while_fix p l : hd_ok p l -> drop_while p l = l.
Proof. destruct l as [|c l]; simpl; [done|]. by intros ->. Qed.

Lemma drop_while_suffix p l : exists pre, l = pre ++ drop_while p l.
Proof.
  induction l as [|c l IH]; simpl; [by exists []|].
  destruct (p c); [|by exists []].
  destruct IH as [pre Hpre]. exists (c :: pre). simpl. by f_equal.
Qed.

Lemma drop_while_Forall (P : N -> Prop) p l : Forall P l -> Forall P (drop_while p l).
Proof.
  induction 1 as [|c l Hc Hl IH]; simpl; [constructor|].
  destruct (p c); [done|by constructor].
Qed.

Lemma strip_by_fix p s : hd_ok p s -> hd_ok p (rev s) -> strip_by p s = s.
Proof.
  intros H1 H2. unfold strip_by.
  rewrite (drop_while_fix p s H1), (drop_while_fix p (rev s) H2). apply rev_involutive.
Qed.

Lemma strip_by_hd p s : hd_ok p (strip_by p s).
Proof.
  unfold strip_by.
  pose proof (drop_while_hd p s) as Ht.
  destruct (drop_while_suffix p (rev (drop_while p s))) as [pre Hpre].
  set (t := drop_while p s) in *. set (w := drop_while p (rev t)) in *.
  assert (Et : t = rev w ++ rev pre).
  { rewrite <- rev_app_distr, <- Hpre. symmetry. apply rev_involutive. }
  destruct (rev w) as [|c r]; [done|].
  rewrite Et in Ht. exact Ht.
Qed.

Lemma strip_by_last p s : hd_ok p (rev (strip_by p s)).
Proof. unfold strip_by. rewrite rev_involutive. apply drop_while_hd. Qed.

Lemma strip_by_idem p s : strip_by p (strip_by p s) = strip_by p s.
Proof. apply strip_by_fix; [apply strip_by_hd|apply strip_by_last]. Qed.

Lemma strip_by_Forall (P : N -> Prop) p s : Forall P s -> Forall P (strip_by p s).
Proof.
  intros H. unfold strip_by. apply Forall_rev, drop_while_Forall, Forall_rev.
  by apply drop_while_Forall.
Qed.

Definition no_linebreak (s : text) : Prop := Forall (fun c => is_linebreak c = false) s.

Lemma splitlines_aux_no_linebreak n : forall l cur,
  (length l <= n)%nat -> no_linebreak cur -> Forall no_linebreak (splitlines_aux l cur).
Proof.
  unfold no_linebreak.
  induction n as [|n IH]; intros l cur Hn Hcur.
  - destruct l; [|simpl in Hn; lia]. simpl.
    destruct cur; repeat constructor. by apply Forall_rev.
  - destruct l as [|c l]; simpl.
    + destruct cur; repeat constructor. by apply Forall_rev.
    + simpl in Hn. destruct (is_linebreak c) eqn:E.
      * constructor; [by apply Forall_rev|].
        destruct (c =? 13); [destruct l as [|d l']; [|destruct (d =? 10)]|];
          apply IH; simpl in *; try lia; constructor.
      * apply IH; [lia|]. by constructor.
Qed.

(** X13: every URL [read_urls] returns is non-empty, is its own
    [strip()], does not start with [#] and contains no line boundary. *)
Theorem read_urls_shape (content u : text) :
  u ∈ read_urls content ->
  u <> [] /\ strip u = u /\ starts_hash u = false /\
  Forall (fun c => is_linebreak c = false) u.
Proof.
  unfold read_urls. intros Hu. apply list_elem_of_In, filter_In in Hu as [Hin Hp].
  apply in_map_iff in Hin as (l & <- & Hl). apply andb_true_iff in Hp as [He Hh].
  apply negb_true_iff in He, Hh.
  split; [by destruct (strip l)|]. split; [apply (strip_by_idem is_space)|].
  split; [done|].
  apply (strip_by_Forall _ is_space).
  pose proof (splitlines_aux_no_linebreak _ (universal_newlines content) []
                (le_n _) (Forall_nil_2 _)) as H.
  rewrite Forall_forall in H. apply H. by apply list_elem_of_In.
Qed.

Lemma universal_newlines_id l : Forall (fun c => c <> 13) l -> universal_newlines l = l.
Proof.
  induction 1 as [|c l Hc _ IH]; simpl; [done|].
  destruct (N.eqb_spec c 13); [done|]. by rewrite IH.
Qed.

Lemma splitlines_aux_line x r : forall cur,
  no_linebreak x -> splitlines_aux (x ++ 10 :: r) cur = (rev cur ++ x) :: splitlines_aux r [].
Proof.
  unfold no_linebreak.
  induction x as [|c x IH]; intros cur Hx; simpl.
  - by rewrite app_nil_r.
  - apply Forall_cons in Hx as [Hc Hx]. rewrite Hc, IH by done.
    simpl. by rewrite <- app_assoc.
Qed.

Definition lines_text (L : list text) : text := flat_map (fun x => x ++ [10]) L.

Lemma splitlines_lines L : Forall no_linebreak L -> splitlines (lines_text L) = L.
Proof.
  unfold splitlines, lines_text.
  induction 1 as [|x L Hx _ IH]; simpl; [done|].
  rewrite <- app_assoc. simpl. rewrite splitlines_aux_line by done. by rewrite IH.
Qed.

Lemma join_lines x L : join [10] (x :: L) ++ [10] = lines_text (x :: L).
Proof.
  unfold lines_text. revert x.
  induction L as [|y L IH]; intros x; [simpl; by rewrite app_nil_r|].
  change (join [10] (x :: y :: L)) with (x ++ [10] ++ join [10] (y :: L)).
  rewrite <- !app_assoc, IH.
  change (flat_map ?f (x :: ?r)) with (f x ++ flat_map f r). cbv beta.
  by rewrite <- app_assoc.
Qed.

Lemma lines_text_no_cr L : Forall no_linebreak L -> Forall (fun c => c <> 13) (lines_text L).
Proof.
  unfold lines_text, no_linebreak.
  induction 1 as [|x L Hx _ IH]; simpl; [constructor|].
  apply Forall_app; split; [|done]. apply Forall_app; split.
  - eapply Forall_impl; [exact Hx|]. intros c Hc ->. discriminate.
  - repeat constructor. discriminate.
Qed.

Lemma insert_sorted_perm x l : insert_sorted x l ≡ₚ x :: l.
Proof.
  induction l as [|y l IH]; simpl; [done|].
  destruct (str_lt y x); [|done]. rewrite IH. apply perm_swap.
Qed.

Lemma sorted_perm l : sorted l ≡ₚ l.
Proof.
  induction l as [|x l IH]; simpl; [done|].
  rewrite insert_sorted_perm. by rewrite IH.
Qed.

Definition clean_line (u : text) : Prop :=
  u <> [] /\ strip u = u /\ starts_hash u = false /\ no_linebreak u.

Lemma load_clean_lines L :
  Forall clean_line L ->
  map strip (List.filter (fun line => negb (is_empty (strip line)) &&
                                      negb (starts_hash (strip line))) L) = L.
Proof.
  induction 1 as [|x L (Hne & Hs & Hh & _) _ IH]; [done|].
  cbn [List.filter]. rewrite Hs, Hh.
  destruct x as [|c x]; [by destruct Hne|].
  cbn [is_empty negb andb map]. by rewrite Hs, IH.
Qed.

(** X14: writing a set of URLs with [save_sent_urls] and reading the file
    back with [load_sent_urls] gives the same set, when every URL is
    non-empty, is its own [strip()], does not start with [#] and holds no
    line boundary. *)
Theorem load_save_round_trip (S : gset text) :
  (forall u, u ∈ S -> u <> [] /\ strip u = u /\ starts_hash u = false /\
                      Forall (fun c => is_linebreak c = false) u) ->
  load_sent_urls (Some (save_sent_urls S)) = S.
Proof.
  intros HS.
  assert (HL : Forall clean_line (sorted (elements S))).
  { apply Forall_forall. intros u Hu.
    rewrite sorted_perm, elem_of_elements in Hu. by apply HS. }
  assert (Hset : list_to_set (sorted (elements S)) = S).
  { rewrite (list_to_set_perm_L _ _ (sorted_perm _)). apply list_to_set_elements_L. }
  unfold save_sent_urls. cbv zeta.
  destruct (sorted (elements S)) as [|x L] eqn:EL.
  - simpl. rewrite <- Hset. done.
  - assert (Hx : x <> []) by (by apply Forall_cons in HL as [[Hx _] _]).
    assert (Hc : is_empty (join [10] (x :: L)) = false).
    { destruct L; simpl; destruct x; done. }
    rewrite Hc, join_lines. unfold load_sent_urls.
    assert (Hnl : Forall no_linebreak (x :: L)).
    { eapply Forall_impl; [exact HL|]. by intros u (_ & _ & _ & Hu). }
    rewrite universal_newlines_id by (by apply lines_text_no_cr).
    rewrite splitlines_lines, load_clean_lines by done. exact Hset.
Qed.


Section SlugifyProofs.
Variable unicode_alnum : N -> bool.

Definition slug_char (c : N) : bool := is_word unicode_alnum c || (c =? 45) || (c =? 46).

Lemma sub_unsafe_slug_chars s : Forall (fun c => slug_char c = true) (sub_unsafe unicode_alnum s).
Proof.
  unfold sub_unsafe. apply Forall_forall. intros c Hc.
  apply list_elem_of_In, in_map_iff in Hc as (d & <- & _).
  unfold slug_char. destruct (is_word unicode_alnum d || (d =? 45) || (d =? 46)) eqn:E; [done|].
  reflexivity.
Qed.

Lemma sub_unsafe_id s : Forall (fun c => slug_char c = true) s -> sub_unsafe unicode_alnum s = s.
Proof.
  unfold sub_unsafe. induction 1 as [|c s Hc _ IH]; [done|].
  cbn [map]. unfold slug_char in Hc. by rewrite Hc, IH.
Qed.

Lemma slugify_props v :
  let s := slugify unicode_alnum v in
  s <> [] /\ Forall (fun c => slug_char c = true) s /\
  hd_ok (N.eqb 95) s /\ hd_ok (N.eqb 95) (rev s).
Proof.
  cbv zeta. unfold slugify. cbv zeta.
  destruct (is_empty (strip_underscores (sub_unsafe unicode_alnum v))) eqn:E.
  - split; [discriminate|]. split; [|split; reflexivity].
    repeat constructor.
  - split; [by destruct (strip_underscores _)|].
    split; [apply (strip_by_Forall _ (N.eqb 95)), sub_unsafe_slug_chars|].
    split; [apply (strip_by_hd (N.eqb 95))|apply (strip_by_last (N.eqb 95))].
Qed.

Lemma hd_ok_hd_error p s c : hd_ok p s -> p c = true -> hd_error s <> Some c.
Proof. destruct s as [|d s]; simpl; [done|]. intros Hd Hc [= ->]. congruence. Qed.

(** X15: [slugify] never returns an empty string; every character of its
    result is a word character ([\w]), [-] or [.]; and the result neither
    starts nor ends with [_]. *)
Theorem slugify_shape (value : text) :
  let s := slugify unicode_alnum value in
  s <> [] /\
  Forall (fun c => is_word unicode_alnum c || (c =? 45) || (c =? 46) = true) s /\
  hd_error s <> Some 95 /\ hd_error (rev s) <> Some 95.
Proof.
  cbv zeta. destruct (slugify_props value) as (Hne & Hc & Hh & Hl).
  split; [done|]. split; [done|].
  split; apply hd_ok_hd_error with (N.eqb 95); done.
Qed.

(** X16: [slugify] is idempotent: a slug is its own slug. *)
Theorem slugify_idempotent (value : text) :
  slugify unicode_alnum (slugify unicode_alnum value) = slugify unicode_alnum value.
Proof.
  destruct (slugify_props value) as (Hne & Hc & Hh & Hl).
  set (s := slugify unicode_alnum value) in *.
  unfold slugify at 1. rewrite sub_unsafe_id by done.
  unfold strip_underscores. change (rev (drop_while (N.eqb 95) (rev (drop_while (N.eqb 95) s))))
    with (strip_by (N.eqb 95) s).
  rewrite strip_by_fix by done. by destruct s.
Qed.
End SlugifyProofs.

End TxtProofs.

(* ================================================================== *)
(** * Concrete runs *)

(** C1 counterexample: the first of two URLs fails to fetch; the only
    chapter is the first success, yet its file is [chapter_002.xhtml]. *)
Lemma C1_counterexample :
  map h_file_name (r_chapters (Demo.build Demo.fetch_first_fails
                                 ["https://a.test/x"; "https://a.test/y"]))
    = ["chapter_002.xhtml"] /\
  chapter_file_name 1 = "chapter_001.xhtml".
Proof. split; vm_compute; reflexivity. Qed.








(** The cleaning of the first URL raises ([urljoin] fails on the image):
    the chapter is made from the raw extracted fragment. *)
Lemma C4_chapter_count_witness :
  snd (build_step Demo.urljoin Demo.md5_10 Demo.guess_extension Demo.net_ok
         Demo.downsample Demo.parse Demo.serialise Demo.fetch_all Demo.readability
         Demo.netloc Demo.st0 [] 1%nat "https://a.test/x") =
    [] ++ [mk_html "T" (chapter_file_name 1%nat) "en"
             (make_chapter_body "T" "https://a.test/x" "<p/>") ["styles.css"]].
Proof.
  destruct (C4_chapter_count Demo.urljoin Demo.md5_10 Demo.guess_extension Demo.net_ok
              Demo.downsample Demo.parse Demo.serialise Demo.fetch_all Demo.readability
              Demo.netloc ["https://a.test/x"]) as (_ & _ & _ & H).
  apply (H Demo.st0 [] 1%nat "https://a.test/x" "<html/>" "https://a.test/x" "T" "<p/>"
           (snd (clean_html Demo.urljoin Demo.md5_10 Demo.guess_extension Demo.net_ok
                   Demo.downsample Demo.parse Demo.serialise "<p/>" "https://a.test/x"
                   Demo.st0)));
    vm_compute; reflexivity.
Defined.

(** C5 counterexample: a [data-foo] attribute, outside the allow-list,
    survives cleaning on a [<div>]. *)
Lemma C5_counterexample :
  Demo.clean Demo.net_ok (Demo.doc [Elem "div" [("data-foo", "x")] [Text "hi"]]) =
    (Some [Elem "div" [("data-foo", "x")] [Text "hi"]], Demo.st0) /\
  mem "data-foo" keep_attrs = false.
Proof. split; vm_compute; reflexivity. Qed.

Lemma C5_attribute_stripping_witness :
  forallb (all_elems (fun t a => negb (String.eqb t "img") ||
                        forallb (fun kv => mem kv.1 keep_attrs) a))
    [Elem "figure" [] [Elem "img" [("src", "images/0123456789.png")] []]] = true.
Proof.
  destruct (C5_attribute_stripping Demo.urljoin Demo.md5_10 Demo.guess_extension
              Demo.net_ok Demo.downsample Demo.parse Demo.serialise) as (_ & _ & _ & H).
  apply (H "https://a.test/" "div" [("src", "a.png"); ("class", "c")] Demo.st0
           _ (snd (Demo.pimg "https://a.test/" "div" [("src", "a.png"); ("class", "c")] Demo.st0)));
    vm_compute; [discriminate|reflexivity].
Defined.

Lemma C6_assembly_witness :
  length (List.filter is_stylesheet
            (r_book (Demo.build Demo.fetch_all ["https://a.test/x"; "https://a.test/y"]))) = 1%nat.
Proof.
  apply (C6_assembly Demo.urljoin Demo.md5_10 Demo.guess_extension Demo.net_ok
           Demo.downsample Demo.parse Demo.serialise Demo.fetch_all Demo.readability
           Demo.netloc ["https://a.test/x"; "https://a.test/y"]).
  vm_compute. discriminate.
Defined.

(** C7 counterexample: the build makes all the requested chapters, but the
    delivery raises, and the state file is not advanced. *)
Lemma C7_counterexample :
  build_and_send ["https://a.test/x"] ∅ (fun _ => 1%nat) false = (Raised, ∅) /\
  (fun _ : list string => 1%nat) ["https://a.test/x"] = length ["https://a.test/x"].
Proof. split; vm_compute; reflexivity. Qed.

Lemma C8_srcset_promotion_witness :
  attr_get "src" (handle_srcset [("srcset", "a.png 1x, b.png 2x")]) = Some "b.png".
Proof.
  apply (C8_srcset_promotion [("srcset", "a.png 1x, b.png 2x")] "b.png");
    vm_compute; reflexivity.
Defined.





(** [int] and [strip] on some non-ASCII input: [int("1_0") == 10],
    [int("1__0")] and [int("_1")] raise, [int("\xa01") == 1] (a no-break
    space), [int("\u0663") == 3] (ARABIC-INDIC DIGIT THREE),
    [int("\x1c1")] raises, and ["\xa0 x\x85".strip() == "x"]. *)
Lemma py_examples :
  Py.int "1_0" = Some 10 /\ Py.int "1__0" = None /\ Py.int "_1" = None /\
  Py.int (String (ascii_of_nat 194) (String (ascii_of_nat 160) "1")) = Some 1 /\
  Py.int (String (ascii_of_nat 217) (String (ascii_of_nat 163) EmptyString)) = Some 3 /\
  Py.int (String (ascii_of_nat 28) "1") = None /\
  Py.strip (String (ascii_of_nat 194) (String (ascii_of_nat 160) (String " " (String "x"
     (String (ascii_of_nat 194) (String (ascii_of_nat 133) EmptyString)))))) = "x".
Proof. repeat split; vm_compute; reflexivity. Qed.

(** A width written [1_0] is the integer 10: a [1_0] by [1] image is a
    tracking pixel, a [1_0] by [1_0] one is not. *)
Lemma tracking_pixel_underscore :
  tracking_pixel "1_0" "1" = true /\ tracking_pixel "1_0" "1_0" = false.
Proof. split; vm_compute; reflexivity. Qed.

(** A paragraph holding only a no-break space has no text and is removed. *)
Lemma nbsp_paragraph_removed :
  remove_empty_node
    (Elem "p" [] [Text (String (ascii_of_nat 194) (String (ascii_of_nat 160) EmptyString))]) = [].
Proof. vm_compute. reflexivity. Qed.

(** Replace a closed left-hand side by its value. *)
Ltac run_eq :=
  match goal with |- ?l = _ => let v := eval vm_compute in l in change l with v end;
  reflexivity.

Lemma clean_no_unwanted_tags_witness :
  exists out st', Demo.clean Demo.net_ok Demo.rich = (Some out, st') /\
    forallb (all_elems (fun t _ => negb (mem t UNWANTED_TAGS))) out = true.
Proof.
  eexists _, _. split; [run_eq|].
  eapply (clean_no_unwanted_tags Demo.urljoin Demo.md5_10 Demo.guess_extension Demo.net_ok
           Demo.downsample "https://a.test/" Demo.rich Demo.st0).
  vm_compute. reflexivity.
Defined.

Lemma clean_img_no_srcset_witness :
  exists out st', Demo.clean Demo.net_ok Demo.rich = (Some out, st') /\
    forallb (all_elems (fun t a => negb (String.eqb t "img") || negb (has_attr "srcset" a)))
      out = true.
Proof.
  eexists _, _. split; [run_eq|].
  eapply (clean_img_no_srcset Demo.urljoin Demo.md5_10 Demo.guess_extension Demo.net_ok
           Demo.downsample "https://a.test/" Demo.rich Demo.st0).
  vm_compute. reflexivity.
Defined.

Lemma clean_img_embedded_or_data_witness :
  exists out st', Demo.clean Demo.net_ok Demo.rich = (Some out, st') /\
    forallb (all_elems (embedded_or_data (cache st'))) out = true.
Proof.
  eexists _, _. split; [run_eq|].
  eapply (clean_img_embedded_or_data Demo.urljoin Demo.md5_10 Demo.guess_extension Demo.net_ok
           Demo.downsample "https://a.test/" Demo.rich Demo.st0).
  vm_compute. reflexivity.
Defined.

Lemma clean_no_comments_witness :
  exists out st', Demo.clean Demo.net_ok Demo.rich = (Some out, st') /\
    forallb comment_free out = true.
Proof.
  eexists _, _. split; [run_eq|].
  eapply (clean_no_comments Demo.urljoin Demo.md5_10 Demo.guess_extension Demo.net_ok
           Demo.downsample "https://a.test/" Demo.rich Demo.st0).
  vm_compute. reflexivity.
Defined.


Lemma build_loop_cache_in_book_witness :
  let st := fst (Demo.loop_dup Demo.net_ok ["https://a.test/x"]) in
  cache st !! "https://a.test/xpic.png" = Some "images/0123456789.png" /\
  exists i, Item i ∈ book st /\ file_name i = "images/0123456789.png" /\
            String.prefix "images/" "images/0123456789.png" = true.
Proof.
  cbv zeta. split; [vm_compute; reflexivity|].
  unfold Demo.loop_dup.
  apply (build_loop_cache_in_book Demo.urljoin Demo.md5_10 Demo.guess_extension Demo.net_ok
           Demo.downsample Demo.parse_dup Demo.serialise Demo.fetch_all Demo.readability
           Demo.netloc ["https://a.test/x"] "https://a.test/xpic.png" "images/0123456789.png").
  vm_compute. reflexivity.
Defined.

Lemma build_loop_no_refetch_witness :
  let st := fst (Demo.loop_dup Demo.net_flaky ["https://a.test/x"]) in
  (0 < 1)%nat /\ fetched st !! 0%nat = Some "https://a.test/xpic.png" /\
  fetched st !! 1%nat = Some "https://a.test/xpic.png" /\
  Demo.net_flaky 0 "https://a.test/xpic.png" = None.
Proof.
  cbv zeta. split; [lia|]. split; [vm_compute; reflexivity|].
  split; [vm_compute; reflexivity|]. unfold Demo.loop_dup.
  apply (build_loop_no_refetch Demo.urljoin Demo.md5_10 Demo.guess_extension Demo.net_flaky
           Demo.downsample Demo.parse_dup Demo.serialise Demo.fetch_all Demo.readability
           Demo.netloc ["https://a.test/x"] 0 1 "https://a.test/xpic.png");
    [lia|vm_compute; reflexivity|vm_compute; reflexivity].
Defined.

Lemma build_and_send_rerun_witness :
  let sent' := snd (build_and_send ["a"; "b"] ∅ (fun l => length l) true) in
  sent' <> ∅ /\ build_and_send ["a"; "b"] sent' (fun _ => 0%nat) false = (Returned None, sent').
Proof.
  cbv zeta.
  assert (H : snd (build_and_send ["a"; "b"] ∅ (fun l => length l) true) <> ∅).
  { intros H. vm_compute in H. discriminate. }
  split; [exact H|].
  exact (build_and_send_rerun ["a"; "b"] ∅ (fun l => length l) (fun _ => 0%nat) true false H).
Defined.

Lemma read_urls_shape_witness :
  let content := (Demo.txt "# saved" ++ [13%N; 10%N] ++ Demo.txt "  https://a.test/x  " ++
                  [10%N; 10%N])%list in
  let u := Demo.txt "https://a.test/x" in
  u ∈ Txt.read_urls content /\
  (u <> [] /\ Txt.strip u = u /\ Txt.starts_hash u = false /\
   Forall (fun c => Txt.is_linebreak c = false) u).
Proof.
  cbv zeta.
  assert (H : Demo.txt "https://a.test/x" ∈
              Txt.read_urls (Demo.txt "# saved" ++ [13%N; 10%N] ++
                             Demo.txt "  https://a.test/x  " ++ [10%N; 10%N])%list).
  { apply list_elem_of_In. vm_compute. auto. }
  split; [exact H|]. exact (TxtProofs.read_urls_shape _ _ H).
Defined.

Lemma load_save_round_trip_witness :
  let S : gset Txt.text := {[ Demo.txt "https://a.test/y"; Demo.txt "https://a.test/x" ]} in
  (forall u, u ∈ S -> u <> [] /\ Txt.strip u = u /\ Txt.starts_hash u = false /\
                      Forall (fun c => Txt.is_linebreak c = false) u) /\
  Txt.load_sent_urls (Some (Txt.save_sent_urls S)) = S.
Proof.
  cbv zeta.
  assert (H : forall u, u ∈ ({[ Demo.txt "https://a.test/y"; Demo.txt "https://a.test/x" ]}
                              : gset Txt.text) ->
              u <> [] /\ Txt.strip u = u /\ Txt.starts_hash u = false /\
              Forall (fun c => Txt.is_linebreak c = false) u).
  { intros u Hu. rewrite elem_of_union, !elem_of_singleton in Hu.
    destruct Hu as [->| ->]; vm_compute;
      (split; [discriminate|]); (split; [reflexivity|]); (split; [reflexivity|]);
      repeat constructor. }
  split; [exact H|]. exact (TxtProofs.load_save_round_trip _ H).
Defined.
